(** * pt_device_monitor: a shallow embedding of the device-monitor client,
    grouping engine and terminal layout engine, with their properties. *)

From Stdlib Require Import List String Ascii ZArith Lia Permutation Bool.
From Stdlib Require Import Numbers.DecimalString.
Import ListNotations.
Open Scope Z_scope.

(* ================================================================== *)
(** ** Data model (APIResponse, PhysicalDevice, LogicalDevice, ...) *)
(* ================================================================== *)

(** Only the fields read by the modelled functions are kept. *)
Record VirtualContext := mkVirtualContext {
  vc_ID : string;
  vc_Name : string;
  vc_IsDefault : bool
}.

Record LogicalDevice := mkLogicalDevice {
  ld_ID : string;
  ld_Name : string;
  ld_TopologyType : string;
  ld_VirtualContexts : list VirtualContext
}.

Record AsNode := mkAsNode {
  an_SyncLinkIP : string;
  an_Priority : Z;
  an_Role : string
}.

Record PhysicalDevice := mkPhysicalDevice {
  pd_ID : string;
  pd_LogicalDevice : LogicalDevice;
  pd_Name : string;
  pd_Model : string;
  pd_ConnectionState : string;
  pd_Address : string;
  pd_AsNode : option AsNode;  (* *AsNode, nil = None *)
  pd_ProductVersion : string
}.

Record APIResponse := mkAPIResponse {
  PhysicalDevices : list PhysicalDevice;
  Total : Z
}.

(** [ActiveNode] is a pointer into the group's member slice; it is modelled
    by the value it points to. *)
Record LogicalDeviceGroup := mkLogicalDeviceGroup {
  g_LogicalDevice : LogicalDevice;
  g_PhysicalDevices : list PhysicalDevice;
  g_IsCluster : bool;
  g_ActiveNode : option PhysicalDevice;
  g_StandbyNodes : list PhysicalDevice
}.

(** [time.Time] values are represented by their "2006-01-02 15:04:05"
    rendering, the only way the modelled code observes them. *)
Definition Time := string.

Record GroupedDevices := mkGroupedDevices {
  LogicalDeviceGroups : list LogicalDeviceGroup;
  TotalDevices : Z;
  LastUpdated : Time
}.

(* ================================================================== *)
(** ** Grouping engine (GroupDevicesByLogicalDevice) *)
(* ================================================================== *)

Module Grouping.

(** [groupMap] as an association list in insertion order.  A Go map is
    iterated in an unspecified order: [mapOrder] is that order, any
    permutation of the entries. *)
Definition GroupMap := list (string * LogicalDeviceGroup).

Definition new_group (device : PhysicalDevice) : LogicalDeviceGroup :=
  {| g_LogicalDevice := pd_LogicalDevice device;
     g_PhysicalDevices := [device];
     g_IsCluster := false;
     g_ActiveNode := None;
     g_StandbyNodes := [] |}.

Definition append_member (g : LogicalDeviceGroup) (device : PhysicalDevice)
  : LogicalDeviceGroup :=
  {| g_LogicalDevice := g_LogicalDevice g;
     g_PhysicalDevices := g_PhysicalDevices g ++ [device];
     g_IsCluster := g_IsCluster g;
     g_ActiveNode := g_ActiveNode g;
     g_StandbyNodes := g_StandbyNodes g |}.

(** [if group, exists := groupMap[logicalID]; exists { append } else { insert }] *)
Fixpoint map_add (m : GroupMap) (logicalID : string) (device : PhysicalDevice)
  : GroupMap :=
  match m with
  | [] => [(logicalID, new_group device)]
  | (k, g) :: rest =>
      if String.eqb k logicalID then (k, append_member g device) :: rest
      else (k, g) :: map_add rest logicalID device
  end.

(** first loop: [for _, device := range response.PhysicalDevices] *)
Fixpoint build_map (m : GroupMap) (devices : list PhysicalDevice) : GroupMap :=
  match devices with
  | [] => m
  | device :: rest =>
      build_map (map_add m (ld_ID (pd_LogicalDevice device)) device) rest
  end.

Definition is_active (device : PhysicalDevice) : bool :=
  match pd_AsNode device with
  | Some n => String.eqb (an_Role n) "ACTIVE_STANDBY_ROLE_ACTIVE"
  | None => false
  end.

Definition is_standby (device : PhysicalDevice) : bool :=
  match pd_AsNode device with
  | Some n => String.eqb (an_Role n) "ACTIVE_STANDBY_ROLE_STANDBY"
  | None => false
  end.

(** [for i := range group.PhysicalDevices { if active {ActiveNode = device}
    else if standby {StandbyNodes = append(StandbyNodes, *device)} }] *)
Fixpoint scan_nodes (devs : list PhysicalDevice) (active : option PhysicalDevice)
    (standby : list PhysicalDevice) : option PhysicalDevice * list PhysicalDevice :=
  match devs with
  | [] => (active, standby)
  | device :: rest =>
      if is_active device then scan_nodes rest (Some device) standby
      else if is_standby device then scan_nodes rest active (standby ++ [device])
      else scan_nodes rest active standby
  end.

Definition is_cluster_topology (t : string) : bool :=
  String.eqb t "TOPOLOGY_TYPE_ACTIVE_STANDBY" || String.eqb t "TOPOLOGY_TYPE_CLUSTER".

(** body of the second loop, applied to one [*group] *)
Definition analyze_group (g : LogicalDeviceGroup) : LogicalDeviceGroup :=
  let isCluster := is_cluster_topology (ld_TopologyType (g_LogicalDevice g)) in
  let '(act, stb) :=
    if isCluster then scan_nodes (g_PhysicalDevices g) (g_ActiveNode g) (g_StandbyNodes g)
    else (g_ActiveNode g, g_StandbyNodes g) in
  {| g_LogicalDevice := g_LogicalDevice g;
     g_PhysicalDevices := g_PhysicalDevices g;
     g_IsCluster := isCluster;
     g_ActiveNode := act;
     g_StandbyNodes := stb |}.

Definition GroupDevicesByLogicalDevice
    (mapOrder : GroupMap -> GroupMap) (now : Time) (response : APIResponse)
  : GroupedDevices :=
  let groupMap := build_map [] (PhysicalDevices response) in
  {| LogicalDeviceGroups := map (fun kg => analyze_group (snd kg)) (mapOrder groupMap);
     TotalDevices := Z.of_nat (List.length (PhysicalDevices response));
     LastUpdated := now |}.

End Grouping.

(* ================================================================== *)
(** ** Layout engine: displayWidth, stripColors, truncateString *)
(* ================================================================== *)

Module Layout.

(** A Go string is a sequence of bytes. *)
Definition bytes := list ascii.
Definition b (s : string) : bytes := list_ascii_of_string s.

Definition ESC : ascii := ascii_of_nat 27.                 (* \033 *)
Definition ColorReset : bytes := ESC :: b "[0m".
Definition ellipsis : bytes := b "...".

Definition in_range (lo hi : nat) (c : ascii) : bool :=
  (lo <=? nat_of_ascii c)%nat && (nat_of_ascii c <=? hi)%nat.

(** [[0-9;]] *)
Definition is_param (c : ascii) : bool := in_range 48 57 c || Ascii.eqb c ";".
(** [[a-zA-Z]] *)
Definition is_letter (c : ascii) : bool := in_range 65 90 c || in_range 97 122 c.

(** length of the longest match of [[0-9;]*[a-zA-Z]] at the start of [s]
    (the two classes are disjoint, so leftmost-first matching has at most
    one match from a given position) *)
Fixpoint params_len (s : bytes) : option nat :=
  match s with
  | [] => None
  | c :: t =>
      if is_param c then option_map S (params_len t)
      else if is_letter c then Some 1%nat
      else None
  end.

(** length of the match of [\033\[[0-9;]*[a-zA-Z]] starting at the start of [s] *)
Definition ansi_match (s : bytes) : option nat :=
  match s with
  | e :: l :: t =>
      if Ascii.eqb e ESC && Ascii.eqb l "[" then option_map (fun n => 2 + n)%nat (params_len t)
      else None
  | _ => None
  end.

(** The left-to-right scan of the regexp engine: at each position either a
    match starts (it is consumed whole) or one byte is left as text. *)
Inductive tok := TText (c : ascii) | TCode (m : bytes).

Fixpoint ansi_lex_go (fuel : nat) (s : bytes) : list tok :=
  match fuel with
  | O => []
  | S fuel' =>
      match s with
      | [] => []
      | c :: t =>
          match ansi_match s with
          | Some n => TCode (firstn n s) :: ansi_lex_go fuel' (skipn n s)
          | None => TText c :: ansi_lex_go fuel' t
          end
      end
  end.

Definition ansi_lex (s : bytes) : list tok := ansi_lex_go (List.length s) s.

Fixpoint texts (ts : list tok) : bytes :=
  match ts with
  | [] => []
  | TText c :: r => c :: texts r
  | TCode _ :: r => texts r
  end.

Fixpoint codes (ts : list tok) : list bytes :=
  match ts with
  | [] => []
  | TText _ :: r => codes r
  | TCode m :: r => m :: codes r
  end.

(** the pieces between matches: one more than the matches *)
Fixpoint split_texts (ts : list tok) : list bytes :=
  match ts with
  | [] => [[]]
  | TText c :: r =>
      match split_texts r with
      | p :: ps => (c :: p) :: ps
      | [] => [[c]]
      end
  | TCode _ :: r => [] :: split_texts r
  end.

(** [ansiRegex.ReplaceAllString(s, "")] *)
Definition stripColors (s : bytes) : bytes := texts (ansi_lex s).
(** [ansiRegex.FindAllString(s, -1)] *)
Definition FindAllString (s : bytes) : list bytes := codes (ansi_lex s).
(** [ansiRegex.Split(s, -1)] *)
Definition Split (s : bytes) : list bytes := split_texts (ansi_lex s).

(** [utf8.RuneCountInString]: the number of bytes the rune starting with
    [c] (followed by [t]) occupies; an invalid or truncated sequence counts
    as one byte. *)
Definition rune_size (c : ascii) (t : bytes) : nat :=
  let n := nat_of_ascii c in
  if (n <? 128)%nat then 1
  else
    (* first[c]: size of the sequence and accepted range of its second byte *)
    let info :=
      if (n <? 194)%nat then None                         (* 0x80-0xC1 *)
      else if (n <=? 223)%nat then Some (2, 128, 191)%nat (* 0xC2-0xDF *)
      else if (n =? 224)%nat then Some (3, 160, 191)%nat  (* 0xE0 *)
      else if (n <=? 236)%nat then Some (3, 128, 191)%nat (* 0xE1-0xEC *)
      else if (n =? 237)%nat then Some (3, 128, 159)%nat  (* 0xED *)
      else if (n <=? 239)%nat then Some (3, 128, 191)%nat (* 0xEE-0xEF *)
      else if (n =? 240)%nat then Some (4, 144, 191)%nat  (* 0xF0 *)
      else if (n <=? 243)%nat then Some (4, 128, 191)%nat (* 0xF1-0xF3 *)
      else if (n =? 244)%nat then Some (4, 128, 143)%nat  (* 0xF4 *)
      else None in                                         (* 0xF5-0xFF *)
    match info with
    | None => 1
    | Some (size, lo, hi) =>
        if (List.length t <? size - 1)%nat then 1
        else
          match t with
          | c1 :: t1 =>
              if negb (in_range lo hi c1) then 1
              else if (size =? 2)%nat then 2
              else match t1 with
                   | c2 :: t2 =>
                       if negb (in_range 128 191 c2) then 1
                       else if (size =? 3)%nat then 3
                       else match t2 with
                            | c3 :: _ => if negb (in_range 128 191 c3) then 1 else 4
                            | [] => 1
                            end
                   | [] => 1
                   end
          | [] => 1
          end
    end%nat.

Fixpoint RuneCountInString (s : bytes) : nat :=
  match s with
  | [] => O
  | c :: t =>
      S (match rune_size c t with
         | 2%nat => match t with _ :: t2 => RuneCountInString t2 | [] => O end
         | 3%nat => match t with _ :: _ :: t3 => RuneCountInString t3 | _ => O end
         | 4%nat => match t with _ :: _ :: _ :: t4 => RuneCountInString t4 | _ => O end
         | _ => RuneCountInString t
         end)
  end.

(** [displayWidth] *)
Definition displayWidth (s : bytes) : Z := Z.of_nat (RuneCountInString (stripColors s)).

(** [s[:k]]; out of range it panics ([None]) *)
Definition go_slice_to (s : bytes) (k : Z) : option bytes :=
  if (0 <=? k) && (k <=? Z.of_nat (List.length s)) then Some (firstn (Z.to_nat k) s)
  else None.

(** the [for _, part := range textParts] loop of [truncateString]; [result]
    is the builder's contents.  In the cut branch [0 < remaining < len(part)],
    so [part[:remaining]] is in range. *)
Fixpoint trunc_loop (textParts colorCodes : list bytes) (colorIndex : nat)
    (textLen targetLen : Z) (result : bytes) : bytes :=
  match textParts with
  | [] => result
  | part :: rest =>
      if targetLen <=? textLen then result
      else
        let remaining := targetLen - textLen in
        if Z.of_nat (List.length part) <=? remaining then
          let result := result ++ part in
          let textLen := textLen + Z.of_nat (List.length part) in
          match nth_error colorCodes colorIndex with
          | Some cc => trunc_loop rest colorCodes (S colorIndex) textLen targetLen (result ++ cc)
          | None => trunc_loop rest colorCodes colorIndex textLen targetLen result
          end
        else result ++ firstn (Z.to_nat remaining) part
  end.

(** [truncateString]; [None] is a panic *)
Definition truncateString (s : bytes) (maxLen : Z) : option bytes :=
  let displayLen := displayWidth s in
  if displayLen <=? maxLen then Some s
  else if maxLen <=? 3 then
    let clean := stripColors s in
    if Z.of_nat (List.length clean) <=? maxLen then Some clean
    else go_slice_to clean maxLen
  else
    let clean := stripColors s in
    if Z.of_nat (List.length clean) <=? maxLen - 3 then Some s
    else
      let colorCodes := FindAllString s in
      let textParts := Split s in
      let targetLen := maxLen - 3 in
      Some (trunc_loop textParts colorCodes O 0 targetLen [] ++ ellipsis ++ ColorReset).

End Layout.

(* ================================================================== *)
(** ** API client (Login, FetchDevices, FetchDevicesWithRetry) *)
(* ================================================================== *)

Module Client.

(** Go's [error] values as they are built in api_client.go.
    [Wrapped p e] is [fmt.Errorf("p: %w", e)]; a [nil] operand of [%w] is
    [None].  [ErrorString m] is [errors.New m] or [fmt.Errorf] without a
    wrapped operand. *)
Inductive GoError :=
| APIError (StatusCode : Z) (Message : string) (Endpoint : string)
| Wrapped (prefix : string) (inner : GoError)
| WrappedNil (prefix : string)
| ErrorString (msg : string).

(** [%d] of a Go [int] *)
Definition Z_to_string (z : Z) : string := NilEmpty.string_of_int (Z.to_int z).

(** [err.Error()] *)
Fixpoint Error (e : GoError) : string :=
  match e with
  | APIError code msg ep =>
      "API error: " ++ Z_to_string code ++ " " ++ msg ++ " (endpoint: " ++ ep ++ ")"
  | Wrapped p i => p ++ ": " ++ Error i
  | WrappedNil p => p ++ ": %!w(<nil>)"
  | ErrorString m => m
  end.

Record Config := mkConfig {
  BaseURL : string;
  Username : string;
  Password : string
}.

Record Cookie := mkCookie {
  ck_Name : string;
  ck_Value : string
}.

(** [*http.Cookie], nil = [None] *)
Record APIClient := mkAPIClient {
  config : Config;
  devicesEndpoint : string;
  loginEndpoint : string;
  authCookie : option Cookie;
  authenticated : bool
}.

Definition NewAPIClient (c : Config) : APIClient :=
  {| config := c;
     loginEndpoint := BaseURL c ++ "Login";
     devicesEndpoint := BaseURL c ++ "ListPhysicalDevices";
     authCookie := None;
     authenticated := false |}.

Definition set_authenticated (ac : APIClient) (b : bool) : APIClient :=
  {| config := config ac; devicesEndpoint := devicesEndpoint ac;
     loginEndpoint := loginEndpoint ac; authCookie := authCookie ac;
     authenticated := b |}.

Definition set_authCookie (ac : APIClient) (c : option Cookie) : APIClient :=
  {| config := config ac; devicesEndpoint := devicesEndpoint ac;
     loginEndpoint := loginEndpoint ac; authCookie := c;
     authenticated := authenticated ac |}.

(** What reading the body of an answer ([io.ReadAll]) and decoding it as
    JSON give: the decoded value, the decoder's error message, or the error
    met while reading the body. *)
Inductive Decoded := JsonOk (r : APIResponse) | JsonErr (msg : string) | ReadErr (msg : string).

(** What [ac.client.Do(req)] yields: a transport error or a response with
    its status code, cookies, body text and the decoding of the body. *)
Inductive Outcome :=
| TransportErr (msg : string)
| HttpResp (StatusCode : Z) (Cookies : list Cookie) (Body : string) (Json : Decoded).

(** The POST requests the client sends. *)
Inductive Request :=
| LoginPost (endpoint login password : string)
| DevicesPost (endpoint : string) (cookie : option Cookie).

(** The world the client runs in: the client object, the answers the server
    will give to the next requests, the requests sent so far, the
    durations (in nanoseconds) slept so far, and what [url.Parse] of the
    net/url package reports for a URL: its error message, or [None] when
    the URL parses. *)
Record World := mkWorld {
  client : APIClient;
  server : list Outcome;
  sent : list Request;
  slept : list Z;
  url_error : string -> option string
}.

(** A state monad over an arbitrary state. *)
Definition M (S A : Type) := S -> A * S.

Definition ret {S A} (a : A) : M S A := fun s => (a, s).

Definition bind {S A B} (m : M S A) (k : A -> M S B) : M S B :=
  fun s => let (a, s') := m s in k a s'.

Notation "'let*' x ':=' m 'in' k" := (bind m (fun x => k))
  (at level 200, x name, m at level 100, k at level 200).

Definition get_client : M World APIClient := fun w => (client w, w).

Definition set_client (ac : APIClient) : M World unit :=
  fun w => (tt, {| client := ac; server := server w; sent := sent w; slept := slept w;
                  url_error := url_error w |}).

(** [ac.client.Do(req)]: the request is recorded and the server's next
    answer is taken; a server that has nothing more to say drops the
    connection. *)
Definition Do (r : Request) : M World Outcome :=
  fun w =>
    let o := match server w with [] => TransportErr "EOF" | o :: _ => o end in
    (o, {| client := client w; server := tl (server w);
           sent := sent w ++ [r]; slept := slept w; url_error := url_error w |}).

(** [time.Sleep(d)] *)
Definition Sleep (d : Z) : M World unit :=
  fun w => (tt, {| client := client w; server := server w;
                  sent := sent w; slept := slept w ++ [d]; url_error := url_error w |}).

(** [http.NewRequest("POST", url, body)]: with a valid method and a
    [*bytes.Buffer] body it fails exactly when [url.Parse(url)] does, with
    that error; nothing is sent. *)
Definition NewRequest (url : string) : M World (option string) :=
  fun w => (url_error w url, w).

(** [time.Second] in nanoseconds *)
Definition Second : Z := 1000000000.

(** A Go result pair [(value, error)]. *)
Inductive Res (A : Type) := Ok (a : A) | Err (e : GoError).
Arguments Ok {A} a.
Arguments Err {A} e.

(** the cookie loop of [Login]: the first cookie with one of the two
    accepted names, compared with [==] *)
Definition is_auth_cookie (c : Cookie) : bool :=
  String.eqb (ck_Name c) "Authorization" || String.eqb (ck_Name c) "Autorization".

Definition find_auth_cookie (cs : list Cookie) : option Cookie :=
  find is_auth_cookie cs.

(** [Login]; the [json.Marshal] of a struct of two strings cannot fail. *)
Definition Login (login password : string) : M World (option GoError) :=
  let* ac := get_client in
  let* perr := NewRequest (loginEndpoint ac) in
  match perr with
  | Some m => ret (Some (Wrapped "failed to create login request" (ErrorString m)))
  | None =>
  let* o := Do (LoginPost (loginEndpoint ac) login password) in
  match o with
  | TransportErr m =>
      ret (Some (Wrapped "failed to execute login request" (ErrorString m)))
  | HttpResp code cookies body _ =>
      if negb (code =? 200) then ret (Some (APIError code body (loginEndpoint ac)))
      else
        let* _ :=
          match find_auth_cookie cookies with
          | Some c => set_client (set_authenticated (set_authCookie ac (Some c)) true)
          | None => ret tt
          end in
        let* ac := get_client in
        if negb (authenticated ac)
        then ret (Some (ErrorString "no Authorization cookie received from login response"))
        else ret None
  end
  end.

(** [makeDevicesRequest]; the [io.ReadAll] of a 200 answer and the JSON
    decoding are the answer's [Json]. *)
Definition makeDevicesRequest : M World (Res APIResponse) :=
  let* ac := get_client in
  let* perr := NewRequest (devicesEndpoint ac) in
  match perr with
  | Some m => ret (Err (Wrapped "failed to create request" (ErrorString m)))
  | None =>
  let* o := Do (DevicesPost (devicesEndpoint ac) (authCookie ac)) in
  match o with
  | TransportErr m => ret (Err (Wrapped "failed to execute request" (ErrorString m)))
  | HttpResp code _ body json =>
      if code =? 401 then ret (Err (APIError code "authentication expired" (devicesEndpoint ac)))
      else if negb (code =? 200) then ret (Err (APIError code body (devicesEndpoint ac)))
      else match json with
           | ReadErr m => ret (Err (Wrapped "failed to read response body" (ErrorString m)))
           | JsonOk r => ret (Ok r)
           | JsonErr m =>
               ret (Err (Wrapped "failed to parse JSON response" (ErrorString m)))
           end
  end
  end.

(** [FetchDevices]; the type assertion to [*APIError] is a match on the
    constructor. *)
Definition FetchDevices : M World (Res APIResponse) :=
  let* ac := get_client in
  if negb (authenticated ac) then ret (Err (ErrorString "not authenticated - please login first"))
  else
    let* r := makeDevicesRequest in
    match r with
    | Ok resp => ret (Ok resp)
    | Err e =>
        let reauth :=
          let* ac := get_client in
          let* _ := set_client (set_authenticated ac false) in
          let* le := Login (Username (config ac)) (Password (config ac)) in
          match le with
          | Some e' => ret (Err (Wrapped "failed to re-authenticate" e'))
          | None =>
              let* r := makeDevicesRequest in
              match r with
              | Ok resp => ret (Ok resp)
              | Err e2 => ret (Err (Wrapped "failed after re-authentication" e2))
              end
          end in
        match e with
        | APIError code _ _ => if code =? 401 then reauth else ret (Err e)
        | _ => ret (Err e)
        end
    end.

(** the retry loop's test: a type assertion to [*APIError] and
    [400 <= StatusCode < 500] *)
Definition is_client_error (e : GoError) : bool :=
  match e with
  | APIError code _ _ => (400 <=? code) && (code <? 500)
  | _ => false
  end.

(** Go's [int] and [time.Duration] are 64-bit: their arithmetic is
    modulo 2^64, in [MinInt64, MaxInt64]. *)
Definition MaxInt64 : Z := 9223372036854775807.

Definition wrap64 (z : Z) : Z := (z + 2 ^ 63) mod 2 ^ 64 - 2 ^ 63.

Definition failed_after (maxRetries : Z) (lastErr : option GoError) : GoError :=
  let prefix := ("failed after " ++ Z_to_string (wrap64 (maxRetries + 1)) ++ " attempts")%string in
  match lastErr with
  | Some e => Wrapped prefix e
  | None => WrappedNil prefix
  end.

(** The loop of [FetchDevicesWithRetry], for any state, fetch and sleep:
    [for attempt := 0; attempt <= maxRetries; attempt++], with [attempt++]
    and [time.Duration(attempt) * time.Second] wrapping around.  The fuel
    bounds the number of iterations.  For [maxRetries < MaxInt64] it is the
    number of iterations the loop condition allows, so the fuel never runs
    out before the condition fails.  For [maxRetries = MaxInt64] the
    condition never fails ([attempt] wraps from [MaxInt64] to [MinInt64])
    and the Go loop only ends on a success or a 4xx error; the model stops
    after 2^63 iterations instead. *)
Section Retry.
Context {St : Type} (fetch : M St (Res APIResponse)) (sleep : Z -> M St unit).

Fixpoint retry_loop (fuel : nat) (attempt maxRetries : Z) (lastErr : option GoError)
    : M St (Res APIResponse) :=
  match fuel with
  | O => ret (Err (failed_after maxRetries lastErr))
  | S f =>
      if negb (attempt <=? maxRetries) then ret (Err (failed_after maxRetries lastErr))
      else
        let* _ := (if 0 <? attempt then sleep (wrap64 (attempt * Second)) else ret tt) in
        let* r := fetch in
        match r with
        | Ok resp => ret (Ok resp)
        | Err e =>
            if is_client_error e then ret (Err (failed_after maxRetries (Some e)))
            else retry_loop f (wrap64 (attempt + 1)) maxRetries (Some e)
        end
  end.

Definition retry_with (maxRetries : Z) : M St (Res APIResponse) :=
  retry_loop (Z.to_nat (maxRetries + 1)) 0 maxRetries None.

End Retry.

Definition FetchDevicesWithRetry (maxRetries : Z) : M World (Res APIResponse) :=
  retry_with FetchDevices Sleep maxRetries.

End Client.

(* ================================================================== *)
(** ** Display manager (Render) *)
(* ================================================================== *)

Module Display.
Import Client.

(** Only the fields [Render] reads and writes are kept. *)
Record DisplayManager := mkDisplayManager {
  lastData : option GroupedDevices;
  errorMessage : string
}.

(** What a call to [Render] draws, one item per render helper it calls. *)
Inductive RenderOp :=
| RClearScreen
| RHeader
| RError (msg : string)
| RSubheader (msg : string)
| RDeviceGroups (data : GroupedDevices)
| RMessage (msg : string)
| RFooter.

(** [t.Format("2006-01-02 15:04:05")]; a [Time] is already that text. *)
Definition Format (t : Time) : string := t.

(** [Render(data, err)]: the new display state and what is drawn. *)
Definition Render (dm : DisplayManager) (data : option GroupedDevices)
    (err : option GoError) : DisplayManager * list RenderOp :=
  let dm :=
    match err with
    | Some e => {| lastData := lastData dm; errorMessage := Error e |}
    | None => {| lastData := data; errorMessage := "" |}
    end in
  let body :=
    if negb (String.eqb (errorMessage dm) "") then
      RError (errorMessage dm) ::
      match lastData dm with
      | Some ld =>
          [RSubheader ("Last known data (from " ++ Format (LastUpdated ld) ++ "):");
           RDeviceGroups ld]
      | None => []
      end
    else match data with
         | Some d => [RDeviceGroups d]
         | None => [RMessage "Waiting for data..."]
         end in
  (dm, [RClearScreen; RHeader] ++ body ++ [RFooter]).

(** a sequence of [Render] calls: the final state and each call's drawing *)
Fixpoint render_all (dm : DisplayManager)
    (calls : list (option GroupedDevices * option GoError))
    : DisplayManager * list (list RenderOp) :=
  match calls with
  | [] => (dm, [])
  | (d, e) :: rest =>
      let (dm1, ops) := Render dm d e in
      let (dm2, screens) := render_all dm1 rest in
      (dm2, ops :: screens)
  end.

(** the device data a drawing shows *)
Fixpoint shown_data (ops : list RenderOp) : option GroupedDevices :=
  match ops with
  | [] => None
  | RDeviceGroups d :: _ => Some d
  | _ :: rest => shown_data rest
  end.

End Display.
(* ================================================================== *)
(** ** API client: the other methods (TestConnection, Logout, ...) *)
(* ================================================================== *)

Module ClientOps.
Import Client.

(** [Logout] *)
Definition Logout : M World unit :=
  let* ac := get_client in
  set_client (set_authCookie (set_authenticated ac false) None).

(** [UpdateConfig]: the new configuration replaces [ac.config]; the
    endpoints, the cookie and the flag are left as they are.  The
    [base_url] field, the timeout and the TLS settings it also sets are not
    read by the modelled code. *)
Definition UpdateConfig (c : Config) : M World unit :=
  let* ac := get_client in
  set_client {| config := c; devicesEndpoint := devicesEndpoint ac;
                loginEndpoint := loginEndpoint ac; authCookie := authCookie ac;
                authenticated := authenticated ac |}.

(** [GetEndpoint] *)
Definition GetEndpoint : M World string :=
  let* ac := get_client in ret (devicesEndpoint ac).

(** [IsAuthenticated] *)
Definition IsAuthenticated : M World bool :=
  let* ac := get_client in ret (authenticated ac).

(** [resp.Status], the status line of an answer (e.g. "503 Service
    Unavailable"), is not part of [Outcome]: [Status code] stands for it. *)
Section Test.
Variable Status : Z -> string.

(** [makeTestRequest]; the [fmt.Printf] of a transport error is not
    modelled. *)
Definition makeTestRequest : M World (option GoError) :=
  let* ac := get_client in
  let* perr := NewRequest (devicesEndpoint ac) in
  match perr with
  | Some m => ret (Some (Wrapped "failed to create test request" (ErrorString m)))
  | None =>
  let* o := Do (DevicesPost (devicesEndpoint ac) (authCookie ac)) in
  match o with
  | TransportErr m => ret (Some (Wrapped "connection test failed" (ErrorString m)))
  | HttpResp code _ _ _ =>
      if code =? 401 then ret (Some (APIError code "authentication expired" (devicesEndpoint ac)))
      else if negb (code =? 200) then ret (Some (APIError code (Status code) (devicesEndpoint ac)))
      else ret None
  end
  end.

(** [TestConnection]; as in [FetchDevices], the type assertion to
    [*APIError] is a match on the constructor. *)
Definition TestConnection : M World (option GoError) :=
  let* err := makeTestRequest in
  match err with
  | None => ret None
  | Some e =>
      let reauth :=
        let* ac := get_client in
        let* _ := set_client (set_authenticated ac false) in
        let* le := Login (Username (config ac)) (Password (config ac)) in
        match le with
        | Some e' => ret (Some (Wrapped "failed to re-authenticate during test" e'))
        | None =>
            let* err := makeTestRequest in
            match err with
            | Some e2 => ret (Some (Wrapped "test failed after re-authentication" e2))
            | None => ret None
            end
        end in
      match e with
      | APIError code _ _ => if code =? 401 then reauth else ret (Some e)
      | _ => ret (Some e)
      end
  end.

End Test.

End ClientOps.

(* ================================================================== *)
(** ** Scheduler (TestInitialConnection, RunOnce) *)
(* ================================================================== *)

Module Scheduler.
Import Grouping Client ClientOps Display.

(** [TestInitialConnection]; [sconfig] is the scheduler's [s.config]. *)
Definition TestInitialConnection (Status : Z -> string) (sconfig : Config)
    : M World (option GoError) :=
  let* err := Login (Username sconfig) (Password sconfig) in
  match err with
  | Some e => ret (Some (Wrapped "login failed" e))
  | None =>
      let* err := TestConnection Status in
      match err with
      | Some e => ret (Some (Wrapped "initial connection test failed" e))
      | None => ret None
      end
  end.

(** [RunOnce] on the client's world and the display manager; [mapOrder]
    and [now] are those of [GroupDevicesByLogicalDevice].  It yields the
    returned error, what its [Render] call draws, and the new world and
    display manager. *)
Definition RunOnce (mapOrder : GroupMap -> GroupMap) (now : Time)
    (w : World) (dm : DisplayManager)
    : option GoError * list RenderOp * World * DisplayManager :=
  let (r, w) := FetchDevicesWithRetry 2 w in
  match r with
  | Err e =>
      let (dm, ops) := Render dm None (Some e) in (Some e, ops, w, dm)
  | Ok response =>
      let grouped := GroupDevicesByLogicalDevice mapOrder now response in
      let (dm, ops) := Render dm (Some grouped) None in (None, ops, w, dm)
  end.

End Scheduler.

(* ================================================================== *)
(** ** Configuration check (validateConfig) *)
(* ================================================================== *)

Module Settings.
Import Layout Client.

(** [bytes.Equal] / [==] on byte strings *)
Definition bytes_eqb (x y : bytes) : bool := if list_eq_dec ascii_dec x y then true else false.

(** [strings.HasPrefix] and [strings.HasSuffix] *)
Definition HasPrefix (s prefix : bytes) : bool :=
  (List.length prefix <=? List.length s)%nat && bytes_eqb (firstn (List.length prefix) s) prefix.

Definition HasSuffix (s suffix : bytes) : bool :=
  (List.length suffix <=? List.length s)%nat &&
  bytes_eqb (skipn (List.length s - List.length suffix) s) suffix.

(** [validateConfig] on the two fields it reads, the base URL and the poll
    interval (a [time.Duration], in nanoseconds): the base URL it leaves in
    [cm.config], and the error it returns. *)
Definition validateConfig (BaseURL : string) (PollInterval : Z) : string * option GoError :=
  if String.eqb BaseURL "" then
    (BaseURL, Some (ErrorString
       "base URL is required. Set it via -base_url flag or PT_BASE_URL environment variable"))
  else
    let BaseURL := if HasSuffix (b BaseURL) (b "/") then BaseURL else (BaseURL ++ "/")%string in
    if PollInterval <? 1 * Second then
      (BaseURL, Some (ErrorString "poll interval must be at least 1 second"))
    else (BaseURL, None).

End Settings.

(* ================================================================== *)
(** ** Table rows and boxed lines of the display *)
(* ================================================================== *)

Module Table.
Import Layout Client Settings.

(** box-drawing characters, as their UTF-8 bytes *)
Definition utf8 (l : list nat) : bytes := map ascii_of_nat l.
Definition vbar : bytes := utf8 [226; 148; 130]%nat.    (* U+2502 *)
Definition hbar : bytes := utf8 [226; 148; 128]%nat.    (* U+2500 *)
Definition tee : bytes := utf8 [226; 148; 156]%nat.     (* U+251C *)
Definition corner : bytes := utf8 [226; 148; 148]%nat.  (* U+2514 *)

Definition ColorRed : bytes := ESC :: b "[31m".
Definition ColorGreen : bytes := ESC :: b "[32m".
Definition ColorYellow : bytes := ESC :: b "[33m".
Definition ColorBlue : bytes := ESC :: b "[34m".
Definition ColorBold : bytes := ESC :: b "[1m".

(** the fields of the display manager and of its configuration that the
    row renderers read *)
Record Screen := mkScreen {
  ColorOutput : bool;
  termWidth : Z
}.

Definition getColor (scr : Screen) (color : bytes) : bytes :=
  if ColorOutput scr then color else [].

Definition getConnectionStateColor (scr : Screen) (state : string) : bytes :=
  if negb (ColorOutput scr) then []
  else if String.eqb state "PHYSICAL_DEVICE_CONNECTION_STATE_CONNECTED" then ColorGreen
  else if String.eqb state "PHYSICAL_DEVICE_CONNECTION_STATE_DISCONNECTED" then ColorRed
  else ColorYellow.

Definition getRoleColor (scr : Screen) (role : string) : bytes :=
  if negb (ColorOutput scr) then []
  else if String.eqb role "ACTIVE" then ColorGreen
  else if String.eqb role "STANDBY" then ColorYellow
  else ColorRed.

Definition GetRoleDisplay (pd : PhysicalDevice) : string :=
  match pd_AsNode pd with
  | Some n =>
      if String.eqb (an_Role n) "ACTIVE_STANDBY_ROLE_ACTIVE" then "ACTIVE"
      else if String.eqb (an_Role n) "ACTIVE_STANDBY_ROLE_STANDBY" then "STANDBY"
      else "UNSPECIFIED"
  | None => ""
  end.

Definition GetConnectionStateDisplay (pd : PhysicalDevice) : string :=
  let s := pd_ConnectionState pd in
  if String.eqb s "PHYSICAL_DEVICE_CONNECTION_STATE_CONNECTED" then "CONNECTED"
  else if String.eqb s "PHYSICAL_DEVICE_CONNECTION_STATE_CONNECTING" then "CONNECTING"
  else if String.eqb s "PHYSICAL_DEVICE_CONNECTION_STATE_DISCONNECTED" then "DISCONNECTED"
  else "UNSPECIFIED".

Definition GetProductVersionDisplay (pd : PhysicalDevice) : string :=
  if String.eqb (pd_ProductVersion pd) "" then "-" else pd_ProductVersion pd.

Definition GetTopologyDisplayName (g : LogicalDeviceGroup) : string :=
  let t := ld_TopologyType (g_LogicalDevice g) in
  if String.eqb t "TOPOLOGY_TYPE_STANDALONE" then "STANDALONE"
  else if String.eqb t "TOPOLOGY_TYPE_ACTIVE_STANDBY" then "ACTIVE_STANDBY"
  else "UNSPECIFIED".

Definition GetVirtualContextsDisplay (g : LogicalDeviceGroup) : string :=
  String.concat ", "
    (map (fun vc => if vc_IsDefault vc then (vc_Name vc ++ " (default)")%string else vc_Name vc)
       (ld_VirtualContexts (g_LogicalDevice g))).

(** [strings.Repeat(" ", n)]; every call below has [n >= 0]. *)
Definition spaces (n : Z) : bytes := repeat " "%char (Z.to_nat n).

(** [fmt.Sprintf("│ %s%s │", s, strings.Repeat(" ", padding))] *)
Definition boxed (s : bytes) (padding : Z) : bytes :=
  vbar ++ [" "%char] ++ s ++ spaces padding ++ [" "%char] ++ vbar.

(** [padString]; in the padding branch [width - currentWidth > 0]. *)
Definition padString (s : bytes) (width : Z) (leftAlign : bool) : bytes :=
  let currentWidth := displayWidth s in
  if width <=? currentWidth then s
  else
    let padding := spaces (width - currentWidth) in
    if leftAlign then s ++ padding else padding ++ s.

(** [calculateColumnWidths].  [int_mul x k] is [int(float64(x) * 0.k)] for
    the literals 0.1, 0.2 and 0.3 of the source; float arithmetic is not
    modelled, and the statements hold whatever integers it yields. *)
Section Columns.
Variable int_mul : Z -> Z -> Z.

Definition baseWidths : list Z := [3; 25; 15; 15; 12; 13; 8].

Definition calculateColumnWidths (termWidth : Z) : list Z :=
  let totalBase := fold_left (fun acc w => acc + (w + 3)) baseWidths 0 in
  let extraSpace := termWidth - totalBase in
  let w i := nth i baseWidths 0 in
  let widths := [w 0%nat; w 1%nat + int_mul extraSpace 2; w 2%nat + int_mul extraSpace 1;
                 w 3%nat + int_mul extraSpace 1; w 4%nat + int_mul extraSpace 2;
                 w 5%nat + int_mul extraSpace 1; w 6%nat + int_mul extraSpace 3] in
  map (fun x => if x <? 0 then 0 else x) widths.

(** [renderPhysicalDevice]: the printed line, [None] when a call panics.
    [colWidths] always has seven entries, so [colWidths[i]] is [nth i]. *)
Definition renderPhysicalDevice (scr : Screen) (device : PhysicalDevice) (isLast : bool)
    : option bytes :=
  let treeChar := if isLast then corner ++ hbar else tee ++ hbar in
  let connColor := getConnectionStateColor scr (pd_ConnectionState device) in
  let resetColor := getColor scr ColorReset in
  let role := GetRoleDisplay device in
  let deviceName :=
    if String.eqb role "" then b (pd_Name device)
    else b (pd_Name device) ++ b " [" ++ getRoleColor scr role ++ b role ++ resetColor ++ b "]" in
  let connectionState := b (GetConnectionStateDisplay device) in
  let productVersion := b (GetProductVersionDisplay device) in
  let colWidths := calculateColumnWidths (termWidth scr) in
  let w i := nth i colWidths 0 in
  let priority :=
    match pd_AsNode device with
    | None => b "-"
    | Some n =>
        if w 5%nat <? 12 then b (Z_to_string (an_Priority n))
        else b ("Priority: " ++ Z_to_string (an_Priority n))
    end in
  let cell s i := option_map (fun t => padString t (w i) true) (truncateString s (w i)) in
  let sep := [" "%char] ++ vbar ++ [" "%char] in
  match cell deviceName 1%nat, cell (b (pd_Model device)) 2%nat, cell connectionState 3%nat,
        cell (b (pd_Address device)) 4%nat, cell priority 5%nat, cell productVersion 6%nat with
  | Some nameCol, Some modelCol, Some statusCol, Some addressCol, Some priorityCol,
    Some versionCol =>
      let treeCol := padString treeChar (w 0%nat) true in
      let deviceRow :=
        [" "%char] ++ treeCol ++ [" "%char] ++ nameCol ++ sep ++ modelCol ++ sep ++
        connColor ++ statusCol ++ resetColor ++ sep ++ addressCol ++ sep ++
        priorityCol ++ sep ++ versionCol in
      let padding := termWidth scr - displayWidth deviceRow - 4 in
      let padding := if padding <? 1 then 0 else padding in
      Some (boxed deviceRow padding)
  | _, _, _, _, _, _ => None
  end.

End Columns.

(** [renderSubheader] and [renderMessage] (the same code): the padding is
    computed from the byte length [len(message)]. *)
Definition renderSubheader (scr : Screen) (message : bytes) : bytes :=
  let padding := termWidth scr - Z.of_nat (List.length message) - 4 in
  let padding := if padding <? 0 then 0 else padding in
  boxed message padding.

Definition renderMessage (scr : Screen) (message : bytes) : bytes :=
  let padding := termWidth scr - Z.of_nat (List.length message) - 4 in
  let padding := if padding <? 0 then 0 else padding in
  boxed message padding.

(** the header line of [renderLogicalDeviceGroup] *)
Definition groupHeaderLine (scr : Screen) (group : LogicalDeviceGroup) : bytes :=
  let topologyColor := getColor scr ColorBlue in
  let boldColor := getColor scr ColorBold in
  let resetColor := getColor scr ColorReset in
  let topology := GetTopologyDisplayName group in
  let name := ld_Name (g_LogicalDevice group) in
  let header :=
    boldColor ++ b "LOGICAL DEVICE: " ++ b name ++ b " " ++ topologyColor ++ b "(" ++
    b topology ++ b ")" ++ resetColor in
  let contexts := GetVirtualContextsDisplay group in
  let header := if String.eqb contexts "" then header
                else header ++ b (" - Contexts: " ++ contexts) in
  let padding :=
    termWidth scr - Z.of_nat (String.length ("LOGICAL DEVICE: " ++ name ++ " (" ++ topology ++ ")"))
    - 4 in
  let padding := if String.eqb contexts "" then padding
                 else padding - Z.of_nat (String.length (" - Contexts: " ++ contexts)) in
  let padding := if padding <? 0 then 0 else padding in
  boxed header padding.

(** the first line of [renderError], drawn from the simplified message;
    here the padding is computed from [displayWidth] *)
Definition errorLine (scr : Screen) (simplifiedError : bytes) : bytes :=
  let errorColor := getColor scr ColorRed in
  let resetColor := getColor scr ColorReset in
  let errorText := errorColor ++ b "ERROR: " ++ simplifiedError ++ resetColor in
  let padding := termWidth scr - displayWidth (b "ERROR: " ++ simplifiedError) - 4 in
  let padding := if padding <? 0 then 0 else padding in
  boxed errorText padding.

(** [strings.Index(url, "/")] *)
Fixpoint IndexSlash (s : bytes) : option nat :=
  match s with
  | [] => None
  | c :: t => if Ascii.eqb c "/" then Some O else option_map S (IndexSlash t)
  end.

(** [extractHostFromURL] *)
Definition extractHostFromURL (url : bytes) : bytes :=
  let url := if HasPrefix url (b "https://") then skipn 8 url
             else if HasPrefix url (b "http://") then skipn 7 url
             else url in
  match IndexSlash url with
  | Some idx => firstn idx url
  | None => url
  end.

End Table.


(* ================================================================== *)
(** ** Observations used by the statements, and sample inputs *)
(* ================================================================== *)

Module GroupingSpec.
Import Grouping.

Definition lid (d : PhysicalDevice) : string := ld_ID (pd_LogicalDevice d).

(** the devices of [devs] whose logical-device id is [k], in fetch order *)
Definition members_of (devs : list PhysicalDevice) (k : string) : list PhysicalDevice :=
  filter (fun d => String.eqb (lid d) k) devs.

Definition first_of (devs : list PhysicalDevice) (k : string) : option PhysicalDevice :=
  find (fun d => String.eqb (lid d) k) devs.

(** logical-device ids in order of first appearance *)
Definition uniq_ids (devs : list PhysicalDevice) : list string :=
  fold_left (fun acc d => if existsb (fun x => String.eqb x (lid d)) acc then acc
                          else acc ++ [lid d]) devs [].

Definition fresh_group (x : PhysicalDevice) (ms : list PhysicalDevice) : LogicalDeviceGroup :=
  {| g_LogicalDevice := pd_LogicalDevice x; g_PhysicalDevices := ms;
     g_IsCluster := false; g_ActiveNode := None; g_StandbyNodes := [] |}.

(** [m] is the map built by the first loop after the devices [pre] *)
Definition Rep (pre : list PhysicalDevice) (m : GroupMap) : Prop :=
  map fst m = uniq_ids pre /\
  forall k g, In (k, g) m ->
    exists x, first_of pre k = Some x /\ g = fresh_group x (members_of pre k).

(** the last element, if any *)
Fixpoint last_opt {A} (l : list A) : option A :=
  match l with
  | [] => None
  | [x] => Some x
  | _ :: t => last_opt t
  end.

(** the groups in the order of the insertion-ordered map *)
Definition canon_groups (devs : list PhysicalDevice) : list LogicalDeviceGroup :=
  map (fun kg => analyze_group (snd kg)) (build_map [] devs).

End GroupingSpec.

Module LayoutSpec.
Import Layout.

(** a byte that can neither continue nor start-continue a match *)
Definition boundary (z : bytes) : bool :=
  match z with
  | [] => true
  | c :: _ => negb (is_param c || is_letter c || Ascii.eqb c "[")
  end.

(** every piece [FindAllString] returns is a whole match *)
Definition is_code (c : bytes) : Prop := ansi_match c = Some (List.length c).

End LayoutSpec.

Module Samples.

Definition ld_L1 : LogicalDevice :=
  mkLogicalDevice "L1" "edge-cluster" "TOPOLOGY_TYPE_ACTIVE_STANDBY" [].
Definition ld_L2 : LogicalDevice :=
  mkLogicalDevice "L2" "branch" "TOPOLOGY_TYPE_STANDALONE" [].
(** same id as [ld_L1], different metadata *)
Definition ld_L1_renamed : LogicalDevice :=
  mkLogicalDevice "L1" "other-name" "TOPOLOGY_TYPE_STANDALONE" [].

Definition node (role : string) : option AsNode := Some (mkAsNode "10.0.0.1" 1 role).

Definition dev (id : string) (ld : LogicalDevice) (n : option AsNode) : PhysicalDevice :=
  mkPhysicalDevice id ld ("fw-" ++ id)%string "NGFW" "PHYSICAL_DEVICE_CONNECTION_STATE_CONNECTED"
    "192.0.2.1" n "7.1".

Definition a1 := dev "a1" ld_L1 (node "ACTIVE_STANDBY_ROLE_ACTIVE").
Definition a2 := dev "a2" ld_L1 (node "ACTIVE_STANDBY_ROLE_ACTIVE").
Definition s1 := dev "s1" ld_L1 (node "ACTIVE_STANDBY_ROLE_STANDBY").
Definition b1 := dev "b1" ld_L2 None.
Definition c1 := dev "c1" ld_L1_renamed None.

(** the scenario of the spec: L1 active/standby pair and a standalone L2 *)
Definition resp_scenario := mkAPIResponse [a1; s1; b1] 3.
(** a cluster reporting two active members *)
Definition resp_two_active := mkAPIResponse [a1; s1; a2] 3.
(** devices of one logical id carrying different metadata *)
Definition resp_mixed_meta := mkAPIResponse [a1; b1; c1] 3.

End Samples.

Module ClientSpec.
Import Client.

(** A fetch whose [i]-th call (from 0) returns [f i], counting its calls,
    and a sleep that logs its durations: the retry loop only observes the
    results of the fetch it is given. *)
Definition Probe := (nat * list Z)%type.

Definition probe_fetch (f : nat -> Res APIResponse) : M Probe (Res APIResponse) :=
  fun p => (f (fst p), (S (fst p), snd p)).

Definition probe_sleep (d : Z) : M Probe unit :=
  fun p => (tt, (fst p, snd p ++ [d])).

(** [k] waits of [n], [n+1], ... seconds *)
Definition waits_from (n k : nat) : list Z :=
  map (fun i => Z.of_nat i * Second) (seq n k).

(** a failure after which the loop tries again *)
Definition retryable (r : Res APIResponse) : Prop :=
  exists e, r = Err e /\ is_client_error e = false.

(** the result of the loop when it stops on [r] *)
Definition final_result (maxRetries : Z) (r : Res APIResponse) : Res APIResponse :=
  match r with
  | Ok resp => Ok resp
  | Err e => Err (failed_after maxRetries (Some e))
  end.

(** the cookie a login answer hands out, when it is accepted *)
Definition login_accepts (o : Outcome) : option Cookie :=
  match o with
  | HttpResp code cs _ _ => if code =? 200 then find_auth_cookie cs else None
  | TransportErr _ => None
  end.

(** the error [Login] reports for a rejected answer *)
Definition login_error (ep : string) (o : Outcome) : GoError :=
  match o with
  | TransportErr m => Wrapped "failed to execute login request" (ErrorString m)
  | HttpResp code _ body _ =>
      if code =? 200 then ErrorString "no Authorization cookie received from login response"
      else APIError code body ep
  end.

(** the result a device-list answer stands for *)
Definition devices_result (ep : string) (o : Outcome) : Res APIResponse :=
  match o with
  | TransportErr m => Err (Wrapped "failed to execute request" (ErrorString m))
  | HttpResp code _ body json =>
      if code =? 401 then Err (APIError code "authentication expired" ep)
      else if negb (code =? 200) then Err (APIError code body ep)
      else match json with
           | ReadErr m => Err (Wrapped "failed to read response body" (ErrorString m))
           | JsonOk r => Ok r
           | JsonErr m => Err (Wrapped "failed to parse JSON response" (ErrorString m))
           end
  end.

(** cookie names [Login] accepts, as the spec spells them *)
Definition auth_name (n : string) : Prop :=
  n = "Authorization"%string \/ n = "Autorization"%string.

End ClientSpec.

Module ClientSamples.
Import Client Display.

Definition cfg : Config := mkConfig "https://ptaf.example/api/" "admin" "secret".
Definition old_cookie : Cookie := mkCookie "Authorization" "old-token".
Definition new_cookie : Cookie := mkCookie "Autorization" "new-token".
Definition resp0 : APIResponse := mkAPIResponse [] 0.
Definition bad_json : Decoded := JsonErr "unexpected end of JSON input".
(** every URL parses *)
Definition urls_ok : string -> option string := fun _ => None.

(** a client that logged in earlier *)
Definition ac_logged_in : APIClient :=
  set_authenticated (set_authCookie (NewAPIClient cfg) (Some old_cookie)) true.

Definition expired : Outcome := HttpResp 401 [] "" bad_json.
Definition login_ok : Outcome := HttpResp 200 [new_cookie] "" bad_json.
Definition devices_ok : Outcome := HttpResp 200 [] "{}" (JsonOk resp0).

Definition busy : Outcome := HttpResp 503 [] "busy" bad_json.
Definition not_found : Outcome := HttpResp 404 [] "not found" bad_json.
Definition w_busy : World := mkWorld ac_logged_in [busy; busy; busy; busy] [] [] urls_ok.
Definition w_not_found : World := mkWorld ac_logged_in [not_found; devices_ok] [] [] urls_ok.

Definition w_reauth : World := mkWorld ac_logged_in [expired; login_ok; devices_ok] [] [] urls_ok.
Definition w_login : World := mkWorld (NewAPIClient cfg) [login_ok] [] [] urls_ok.
Definition w_login_lower : World :=
  mkWorld (NewAPIClient cfg) [HttpResp 200 [mkCookie "authorization" "tok"] "" bad_json] [] []
    urls_ok.

(** a base URL whose port is not a number: [url.Parse] rejects the
    endpoints built from it, with its [*url.Error] message *)
Definition dq : string := String (ascii_of_nat 34) EmptyString.
Definition bad_base : string := "http://ptaf.example:api/".
Definition bad_port_error (u : string) : string :=
  "parse " ++ dq ++ u ++ dq ++ ": invalid port " ++ dq ++ ":api" ++ dq ++ " after host".
Definition bad_port_urls (u : string) : option string :=
  if String.prefix bad_base u then Some (bad_port_error u) else None.
Definition w_bad_url : World :=
  mkWorld (NewAPIClient (mkConfig bad_base "admin" "secret")) [login_ok] [] [] bad_port_urls.

Definition gd0 : GroupedDevices := mkGroupedDevices [] 0 "2026-10-19 08:00:00"%string.
Definition gd1 : GroupedDevices := mkGroupedDevices [] 0 "2026-10-19 08:00:05"%string.
Definition dm_with_data : DisplayManager := mkDisplayManager (Some gd0) "".

End ClientSamples.

Module ClientOpsSpec.
Import Client.

(** the answer the next request gets *)
Definition next_outcome (w : World) : Outcome :=
  match server w with [] => TransportErr "EOF" | o :: _ => o end.

(** the world after request [r] was answered, with client [ac] *)
Definition after_request (w : World) (r : Request) (ac : APIClient) : World :=
  mkWorld ac (tl (server w)) (sent w ++ [r]) (slept w) (url_error w).

Definition not_authenticated : GoError :=
  ErrorString "not authenticated - please login first".

(** the error a test-request answer stands for *)
Definition test_result (Status : Z -> string) (ep : string) (o : Outcome) : option GoError :=
  match o with
  | TransportErr m => Some (Wrapped "connection test failed" (ErrorString m))
  | HttpResp code _ _ _ =>
      if code =? 401 then Some (APIError code "authentication expired" ep)
      else if negb (code =? 200) then Some (APIError code (Status code) ep)
      else None
  end.

(** an [*APIError] with status 401 *)
Definition is_unauthorized (e : GoError) : bool :=
  match e with APIError code _ _ => code =? 401 | _ => false end.

End ClientOpsSpec.

Module ClientOpsSamples.
Import Client ClientSamples.

(** a client that never logged in, facing a server that would answer *)
Definition w_logged_out : World := mkWorld (NewAPIClient cfg) [devices_ok] [] [] urls_ok.
(** a 200 answer whose body is not the expected JSON *)
Definition w_bad_body : World := mkWorld ac_logged_in [HttpResp 200 [] "oops" bad_json] [] [] urls_ok.
(** a new configuration: other host, other credentials *)
Definition cfg2 : Config := mkConfig "https://other.example/api/" "operator" "pw2".
(** a fresh client: login accepted, then the test request answered 200 *)
Definition w_start : World := mkWorld (NewAPIClient cfg) [login_ok; devices_ok] [] [] urls_ok.
(** the status line as a function of the code *)
Definition status_line (code : Z) : string := Z_to_string code.

End ClientOpsSamples.

Module TableSpec.
Import Layout.

(** no byte of [x] is ESC, so no color code starts in [x] *)
Definition no_esc (x : bytes) : bool := forallb (fun c => negb (Ascii.eqb c ESC)) x.

(** [y] is empty or starts with an ASCII byte (never a UTF-8 continuation byte) *)
Definition ascii_head (y : bytes) : bool :=
  match y with [] => true | c :: _ => (nat_of_ascii c <? 128)%nat end.

Definition is_ascii (x : bytes) : bool := forallb (fun c => (nat_of_ascii c <? 128)%nat) x.

Definition sumZ (l : list Z) : Z := fold_right Z.add 0 l.

(** a color from [getColor] and the like: empty, or one whole color code *)
Definition opt_code (c : bytes) : Prop := c = [] \/ LayoutSpec.is_code c.

End TableSpec.

(* ================================================================== *)
(** ** Proofs *)
(* ================================================================== *)

(* ------------------------------------------------------------------ *)
(** *** Facts about the grouping engine *)

Module GroupingFacts.
Import Grouping GroupingSpec.

Lemma uniq_ids_snoc pre d :
  uniq_ids (pre ++ [d]) =
  if existsb (fun x => String.eqb x (lid d)) (uniq_ids pre) then uniq_ids pre
  else uniq_ids pre ++ [lid d].
Proof. unfold uniq_ids. now rewrite fold_left_app. Qed.

Lemma uniq_ids_spec pre :
  NoDup (uniq_ids pre) /\
  (forall k, In k (uniq_ids pre) <-> exists x, In x pre /\ lid x = k).
Proof.
  induction pre as [|d pre IH] using rev_ind.
  - split; [constructor|]. intros k; simpl; split; [tauto|]. intros (x & [] & _).
  - destruct IH as [ND IN]. rewrite uniq_ids_snoc.
    destruct (existsb (fun x => String.eqb x (lid d)) (uniq_ids pre)) eqn:E.
    + apply existsb_exists in E as (y & Hy & Hyd). apply String.eqb_eq in Hyd; subst y.
      split; [exact ND|]. intros k; rewrite IN; split.
      * intros (x & Hx & <-). exists x; split; [apply in_or_app; now left|reflexivity].
      * intros (x & Hx & <-). apply in_app_or in Hx as [Hx|[<-|[]]].
        -- now exists x.
        -- now apply IN.
    + split.
      * apply NoDup_app; [exact ND|repeat constructor; auto|].
        intros x Hx [<-|[]]. assert (existsb (fun y => String.eqb y (lid d)) (uniq_ids pre) = true)
          by (apply existsb_exists; exists (lid d); split; [exact Hx|apply String.eqb_refl]).
        congruence.
      * intros k; rewrite in_app_iff, IN; simpl; split.
        -- intros [(x & Hx & <-)|[<-|[]]].
           ++ exists x; split; [apply in_or_app; now left|reflexivity].
           ++ exists d; split; [apply in_or_app; right; now left|reflexivity].
        -- intros (x & Hx & <-). apply in_app_or in Hx as [Hx|[<-|[]]].
           ++ left; now exists x.
           ++ right; now left.
Qed.

Lemma map_add_keys m k d :
  map fst (map_add m k d) =
  if existsb (fun x => String.eqb x k) (map fst m) then map fst m else map fst m ++ [k].
Proof.
  induction m as [|[k0 g0] m IH]; simpl; [reflexivity|].
  destruct (String.eqb k0 k) eqn:E; simpl; [reflexivity|].
  rewrite IH. now destruct (existsb _ _).
Qed.

Lemma map_add_in m k d k' g' :
  NoDup (map fst m) -> In (k', g') (map_add m k d) ->
  (k' <> k /\ In (k', g') m) \/
  (k' = k /\ ((exists g, In (k, g) m /\ g' = append_member g d) \/
              (~ In k (map fst m) /\ g' = new_group d))).
Proof.
  induction m as [|[k0 g0] m IH]; simpl; intros ND H.
  - destruct H as [[= <- <-]|[]]. right; split; [reflexivity|right; auto].
  - inversion ND as [|? ? Hn ND']; subst.
    destruct (String.eqb k0 k) eqn:E.
    + apply String.eqb_eq in E; subst k0.
      destruct H as [[= <- <-]|H].
      * right; split; [reflexivity|left; exists g0; auto].
      * left; split; [|now right].
        intros ->. apply Hn. now apply (in_map fst) in H.
    + apply String.eqb_neq in E.
      destruct H as [[= <- <-]|H].
      * left; split; [exact E|now left].
      * destruct (IH ND' H) as [[? ?]|[? [(g & ? & ?)|[? ?]]]].
        -- left; split; auto.
        -- right; split; [auto|left; exists g; auto].
        -- right; split; [auto|right; split; auto]. intros [?|?]; auto.
Qed.

Lemma members_of_snoc pre d k :
  members_of (pre ++ [d]) k =
  members_of pre k ++ (if String.eqb (lid d) k then [d] else []).
Proof. unfold members_of. rewrite filter_app; simpl. now destruct (String.eqb _ _). Qed.

Lemma first_of_snoc pre d k :
  first_of (pre ++ [d]) k =
  match first_of pre k with
  | Some x => Some x
  | None => if String.eqb (lid d) k then Some d else None
  end.
Proof.
  unfold first_of. induction pre as [|y pre IH]; simpl; [now destruct (String.eqb _ _)|].
  destruct (String.eqb (lid y) k); [reflexivity|exact IH].
Qed.

Lemma first_of_none pre k :
  (forall x, In x pre -> lid x <> k) -> first_of pre k = None /\ members_of pre k = [].
Proof.
  intros H. split.
  - destruct (first_of pre k) as [x|] eqn:E; [|reflexivity].
    apply find_some in E as [Hx Hk]. apply String.eqb_eq in Hk. now destruct (H x Hx).
  - unfold members_of. induction pre as [|y pre IH]; simpl; [reflexivity|].
    destruct (String.eqb (lid y) k) eqn:E.
    + apply String.eqb_eq in E. now destruct (H y (or_introl eq_refl)).
    + apply IH. intros x Hx. apply H. now right.
Qed.

Lemma Rep_step pre m d : Rep pre m -> Rep (pre ++ [d]) (map_add m (lid d) d).
Proof.
  intros [Hkeys Hent]. destruct (uniq_ids_spec pre) as [ND IN].
  split.
  - rewrite map_add_keys, uniq_ids_snoc, Hkeys. reflexivity.
  - intros k' g' H. rewrite <- Hkeys in ND.
    destruct (map_add_in m (lid d) d k' g' ND H) as [[Hne Hin]|[-> [(g & Hin & ->)|[Hnin ->]]]].
    + destruct (Hent _ _ Hin) as (x & Hf & ->). exists x.
      rewrite first_of_snoc, members_of_snoc, Hf.
      destruct (String.eqb (lid d) k') eqn:E; [apply String.eqb_eq in E; congruence|].
      now rewrite app_nil_r.
    + destruct (Hent _ _ Hin) as (x & Hf & ->). exists x.
      rewrite first_of_snoc, members_of_snoc, Hf, String.eqb_refl. split; reflexivity.
    + rewrite Hkeys in Hnin.
      assert (Hno : forall x, In x pre -> lid x <> lid d)
        by (intros x Hx Heq; apply Hnin, IN; now exists x).
      destruct (first_of_none _ _ Hno) as [Hf Hm].
      exists d. rewrite first_of_snoc, members_of_snoc, Hf, Hm, String.eqb_refl. split; reflexivity.
Qed.

Lemma Rep_build_map rest : forall pre m, Rep pre m -> Rep (pre ++ rest) (build_map m rest).
Proof.
  induction rest as [|d rest IH]; simpl; intros pre m H.
  - now rewrite app_nil_r.
  - replace (pre ++ d :: rest) with ((pre ++ [d]) ++ rest) by now rewrite <- app_assoc.
    apply IH. now apply Rep_step.
Qed.

Lemma Rep_groupMap devs : Rep devs (build_map [] devs).
Proof.
  apply (Rep_build_map devs [] []). split; [reflexivity|]. intros k g [].
Qed.

Lemma last_opt_cons_some {A} l : forall (y : A), exists z, last_opt (y :: l) = Some z.
Proof.
  induction l as [|z l IH]; intros y; [now exists y|].
  destruct (IH z) as [w Hw]. exists w. exact Hw.
Qed.

Lemma last_opt_cons {A} (x : A) l :
  last_opt (x :: l) = match last_opt l with Some y => Some y | None => Some x end.
Proof.
  destruct l as [|y l]; [reflexivity|].
  destruct (last_opt_cons_some l y) as [z Hz].
  change (last_opt (x :: y :: l)) with (last_opt (y :: l)). now rewrite Hz.
Qed.

Lemma active_not_standby d : is_active d = true -> is_standby d = false.
Proof.
  unfold is_active, is_standby. destruct (pd_AsNode d) as [n|]; [|discriminate].
  intros H. apply String.eqb_eq in H. rewrite H. reflexivity.
Qed.

Lemma scan_nodes_spec ms : forall act stb,
  scan_nodes ms act stb =
  (match last_opt (filter is_active ms) with Some y => Some y | None => act end,
   stb ++ filter is_standby ms).
Proof.
  induction ms as [|d ms IH]; intros act stb; simpl.
  - now rewrite app_nil_r.
  - destruct (is_active d) eqn:A.
    + rewrite IH, (active_not_standby d A), last_opt_cons.
      now destruct (last_opt (filter is_active ms)).
    + destruct (is_standby d); rewrite IH; [now rewrite <- app_assoc|reflexivity].
Qed.

Lemma Permutation_concat {A} (l l' : list (list A)) :
  Permutation l l' -> Permutation (List.concat l) (List.concat l').
Proof.
  induction 1; simpl.
  - constructor.
  - now apply Permutation_app_head.
  - rewrite !app_assoc. apply Permutation_app_tail, Permutation_app_comm.
  - eapply Permutation_trans; eauto.
Qed.

Lemma filter_partition_perm {A} (p : A -> bool) l :
  Permutation (filter p l ++ filter (fun x => negb (p x)) l) l.
Proof.
  induction l as [|a l IH]; simpl; [constructor|].
  destruct (p a); simpl.
  - now constructor.
  - apply Permutation_sym, Permutation_cons_app, Permutation_sym, IH.
Qed.

Lemma members_of_filter_other l k k' :
  k' <> k ->
  members_of l k' = members_of (filter (fun d => negb (String.eqb (lid d) k)) l) k'.
Proof.
  intros Hne. unfold members_of. induction l as [|d l IH]; simpl; [reflexivity|].
  destruct (String.eqb (lid d) k') eqn:E1.
  - apply String.eqb_eq in E1. subst k'.
    destruct (String.eqb (lid d) k) eqn:E2; [apply String.eqb_eq in E2; congruence|].
    simpl. rewrite String.eqb_refl. now f_equal.
  - destruct (String.eqb (lid d) k); simpl; [exact IH|]. rewrite E1. exact IH.
Qed.

Lemma concat_members_perm K : forall l,
  NoDup K -> (forall d, In d l -> In (lid d) K) ->
  Permutation (List.concat (map (members_of l) K)) l.
Proof.
  induction K as [|k K IH]; intros l ND Hin; simpl.
  - destruct l as [|d l]; [constructor|]. destruct (Hin d (or_introl eq_refl)).
  - inversion ND as [|? ? Hk ND']; subst.
    set (l' := filter (fun d => negb (String.eqb (lid d) k)) l).
    assert (Heq : map (members_of l) K = map (members_of l') K).
    { apply map_ext_in. intros k' Hk'. apply members_of_filter_other.
      intros ->. contradiction. }
    rewrite Heq.
    eapply Permutation_trans.
    + apply Permutation_app_head, IH; [exact ND'|].
      intros d Hd. unfold l' in Hd. apply filter_In in Hd as [Hd Hn].
      destruct (Hin d Hd) as [E|E]; [|exact E].
      rewrite E, String.eqb_refl in Hn. discriminate.
    + apply (filter_partition_perm (fun d => String.eqb (lid d) k)).
Qed.

Lemma NoDup_map_inj {A B} (f : A -> B) l a b :
  NoDup (map f l) -> In a l -> In b l -> f a = f b -> a = b.
Proof.
  induction l as [|x l IH]; simpl; [tauto|]. intros ND Ha Hb E.
  inversion ND as [|? ? Hx ND']; subst.
  destruct Ha as [<-|Ha], Hb as [<-|Hb]; auto.
  - exfalso. apply Hx. rewrite E. now apply in_map.
  - exfalso. apply Hx. rewrite <- E. now apply in_map.
Qed.

Lemma find_split {A} (f : A -> bool) l x :
  find f l = Some x ->
  exists pre post, l = pre ++ x :: post /\ (forall y, In y pre -> f y = false).
Proof.
  induction l as [|y l IH]; simpl; [discriminate|].
  destruct (f y) eqn:E.
  - intros [= ->]. exists [], l. split; [reflexivity|intros ? []].
  - intros H. destruct (IH H) as (pre & post & -> & Hpre).
    exists (y :: pre), post. split; [reflexivity|].
    intros z [<-|Hz]; auto.
Qed.

Lemma analyze_fresh x ms :
  analyze_group (fresh_group x ms) =
  let c := is_cluster_topology (ld_TopologyType (pd_LogicalDevice x)) in
  {| g_LogicalDevice := pd_LogicalDevice x; g_PhysicalDevices := ms;
     g_IsCluster := c;
     g_ActiveNode := if c then last_opt (filter is_active ms) else None;
     g_StandbyNodes := if c then filter is_standby ms else [] |}.
Proof.
  unfold analyze_group, fresh_group; simpl.
  destruct (is_cluster_topology _); [|reflexivity].
  rewrite scan_nodes_spec. simpl. now destruct (last_opt _).
Qed.

Lemma groups_perm_canon mapOrder now resp :
  (forall m, Permutation (mapOrder m) m) ->
  Permutation (LogicalDeviceGroups (GroupDevicesByLogicalDevice mapOrder now resp))
              (canon_groups (PhysicalDevices resp)).
Proof. intros Hperm. simpl. apply Permutation_map, Hperm. Qed.

Lemma canon_entry devs g :
  In g (canon_groups devs) ->
  exists x, first_of devs (lid x) = Some x /\
            g = analyze_group (fresh_group x (members_of devs (lid x))).
Proof.
  unfold canon_groups. intros H. apply in_map_iff in H as ([k g0] & <- & Hin).
  destruct (Rep_groupMap devs) as [_ Hent].
  destruct (Hent _ _ Hin) as (x & Hf & ->).
  pose proof Hf as Hf'. apply find_some in Hf' as [_ Hk]. apply String.eqb_eq in Hk.
  subst k. exists x. auto.
Qed.

Lemma canon_ids devs :
  map (fun g => ld_ID (g_LogicalDevice g)) (canon_groups devs) = uniq_ids devs.
Proof.
  destruct (Rep_groupMap devs) as [Hkeys Hent]. rewrite <- Hkeys.
  unfold canon_groups. rewrite map_map.
  apply map_ext_in. intros [k g] Hin. simpl.
  destruct (Hent _ _ Hin) as (x & Hf & ->).
  apply find_some in Hf as [_ Hk]. apply String.eqb_eq in Hk. rewrite analyze_fresh. exact Hk.
Qed.

Lemma canon_members devs :
  map g_PhysicalDevices (canon_groups devs) = map (members_of devs) (uniq_ids devs).
Proof.
  destruct (Rep_groupMap devs) as [Hkeys Hent]. rewrite <- Hkeys.
  unfold canon_groups. rewrite !map_map.
  apply map_ext_in. intros [k g] Hin. simpl.
  destruct (Hent _ _ Hin) as (x & Hf & ->). now rewrite analyze_fresh.
Qed.

End GroupingFacts.

(* ------------------------------------------------------------------ *)
(** *** Facts about the ANSI scanner and the rune count *)

Module LayoutFacts.
Import Layout LayoutSpec.

#[local] Arguments ansi_match : simpl never.

Lemma params_len_bounds t k : params_len t = Some k -> (1 <= k <= List.length t)%nat.
Proof.
  revert k; induction t as [|c t IH]; simpl; intros k H; [discriminate|].
  destruct (is_param c).
  - destruct (params_len t) as [k'|] eqn:E; [|discriminate]. simpl in H. injection H as <-.
    specialize (IH k' eq_refl). lia.
  - destruct (is_letter c); [injection H as <-; lia|discriminate].
Qed.

Lemma ansi_match_bounds s n : ansi_match s = Some n -> (1 <= n <= List.length s)%nat.
Proof.
  destruct s as [|e [|l t]]; unfold ansi_match; simpl; try discriminate.
  destruct (Ascii.eqb e ESC && Ascii.eqb l "[")%bool; [|discriminate].
  destruct (params_len t) as [k|] eqn:E; [|discriminate]. simpl. intros [= <-].
  apply params_len_bounds in E. lia.
Qed.

Lemma ansi_lex_go_fuel f1 : forall f2 s,
  (List.length s <= f1)%nat -> (List.length s <= f2)%nat -> ansi_lex_go f1 s = ansi_lex_go f2 s.
Proof.
  induction f1 as [|f1 IH]; intros f2 s H1 H2.
  - destruct s; [destruct f2; reflexivity|simpl in H1; lia].
  - destruct f2 as [|f2]; [destruct s; [reflexivity|simpl in H2; lia]|].
    destruct s as [|c t]; [reflexivity|]. simpl.
    destruct (ansi_match (c :: t)) as [n|] eqn:E.
    + apply ansi_match_bounds in E. simpl in H1, H2, E.
      f_equal. apply IH; rewrite length_skipn; cbn [List.length]; lia.
    + simpl in H1, H2. f_equal. apply IH; lia.
Qed.

Lemma ansi_lex_unfold c t :
  ansi_lex (c :: t) =
  match ansi_match (c :: t) with
  | Some n => TCode (firstn n (c :: t)) :: ansi_lex (skipn n (c :: t))
  | None => TText c :: ansi_lex t
  end.
Proof.
  unfold ansi_lex at 1. simpl.
  destruct (ansi_match (c :: t)) as [n|] eqn:E.
  - apply ansi_match_bounds in E. f_equal. apply ansi_lex_go_fuel; rewrite ?length_skipn; cbn [List.length] in *; lia.
  - f_equal.
Qed.

Lemma ansi_lex_nil : ansi_lex [] = [].
Proof. reflexivity. Qed.

(** a match found in [x] is found in any extension of [x] *)
Lemma params_len_app t y k : params_len t = Some k -> params_len (t ++ y) = Some k.
Proof.
  revert k; induction t as [|c t IH]; simpl; intros k H; [discriminate|].
  destruct (is_param c).
  - destruct (params_len t) as [k'|] eqn:E; [|discriminate]. now rewrite (IH k' eq_refl).
  - exact H.
Qed.

Lemma ansi_match_app x y n : ansi_match x = Some n -> ansi_match (x ++ y) = Some n.
Proof.
  destruct x as [|e [|l t]]; unfold ansi_match; simpl; try discriminate.
  destruct (Ascii.eqb e ESC && Ascii.eqb l "[")%bool; [|discriminate].
  destruct (params_len t) as [k|] eqn:E; [|discriminate].
  now rewrite (params_len_app t y k E).
Qed.

Lemma params_len_firstn t k : params_len t = Some k -> params_len (firstn k t) = Some k.
Proof.
  revert k; induction t as [|c t IH]; simpl; intros k H; [discriminate|].
  destruct (is_param c) eqn:P.
  - destruct (params_len t) as [k'|] eqn:E; [|discriminate]. simpl in H. injection H as <-.
    simpl. rewrite P, (IH k' eq_refl). reflexivity.
  - destruct (is_letter c) eqn:L; [|discriminate]. injection H as <-. simpl. now rewrite P, L.
Qed.

Lemma ansi_match_firstn s n : ansi_match s = Some n -> ansi_match (firstn n s) = Some n.
Proof.
  intros H. pose proof (ansi_match_bounds _ _ H) as B.
  destruct s as [|e [|l t]]; unfold ansi_match in H; simpl in H; try discriminate.
  destruct (Ascii.eqb e ESC && Ascii.eqb l "[")%bool eqn:EL; [|discriminate].
  destruct (params_len t) as [k|] eqn:E; [|discriminate]. simpl in H. injection H as <-.
  unfold ansi_match. simpl. rewrite EL. now rewrite (params_len_firstn t k E).
Qed.

Lemma params_len_boundary t z : boundary z = true -> params_len (t ++ z) = params_len t.
Proof.
  intros Hz. induction t as [|c t IH]; simpl.
  - destruct z as [|c z]; [reflexivity|]. simpl in *.
    destruct (is_param c), (is_letter c); simpl in Hz; try discriminate; reflexivity.
  - now rewrite IH.
Qed.

Lemma ansi_match_boundary x z : x <> [] -> boundary z = true -> ansi_match (x ++ z) = ansi_match x.
Proof.
  intros Hx Hz. destruct x as [|e [|l t]]; [congruence| |].
  - destruct z as [|c z]; [reflexivity|]. unfold ansi_match. simpl.
    simpl in Hz. destruct (Ascii.eqb c "["); [rewrite orb_true_r in Hz; discriminate|].
    now rewrite andb_false_r.
  - unfold ansi_match. simpl. now rewrite params_len_boundary.
Qed.

Lemma ansi_lex_app_boundary x : forall z,
  boundary z = true -> ansi_lex (x ++ z) = ansi_lex x ++ ansi_lex z.
Proof.
  induction x as [x IH] using (induction_ltof1 _ (@List.length ascii)); unfold ltof in IH.
  intros z Hz. destruct x as [|c t]; [reflexivity|].
  simpl (_ ++ _). rewrite !ansi_lex_unfold.
  change (c :: t ++ z) with ((c :: t) ++ z).
  rewrite ansi_match_boundary by (discriminate || exact Hz).
  destruct (ansi_match (c :: t)) as [n|] eqn:E.
  - pose proof (ansi_match_bounds _ _ E) as B.
    rewrite firstn_app, skipn_app.
    replace (n - List.length (c :: t))%nat with O by lia. simpl (firstn 0 _). simpl (skipn 0 _).
    rewrite app_nil_r. simpl. f_equal. apply IH; [rewrite length_skipn; cbn [List.length] in *; lia|exact Hz].
  - simpl. f_equal. apply IH; [simpl; lia|exact Hz].
Qed.

Lemma texts_app l1 l2 : texts (l1 ++ l2) = texts l1 ++ texts l2.
Proof. induction l1 as [|[c|m] l1 IH]; simpl; now rewrite ?IH. Qed.

Lemma stripColors_app_boundary x z :
  boundary z = true -> stripColors (x ++ z) = stripColors x ++ stripColors z.
Proof. intros Hz. unfold stripColors. now rewrite ansi_lex_app_boundary, texts_app. Qed.

Lemma stripColors_length s : (List.length (stripColors s) <= List.length s)%nat.
Proof.
  induction s as [s IH] using (induction_ltof1 _ (@List.length ascii)); unfold ltof in IH.
  destruct s as [|c t]; [simpl; lia|]. unfold stripColors. rewrite ansi_lex_unfold.
  destruct (ansi_match (c :: t)) as [n|] eqn:E.
  - pose proof (ansi_match_bounds _ _ E) as B. simpl.
    assert (H := IH (skipn n (c :: t)) ltac:(rewrite length_skipn; cbn [List.length] in *; lia)).
    unfold stripColors in H. rewrite length_skipn in H. cbn [List.length] in *. lia.
  - simpl. assert (H := IH t ltac:(simpl; lia)). unfold stripColors in H. lia.
Qed.

(** appending bytes after [x] adds at most that many visible bytes *)
Lemma stripColors_app_le x : forall y,
  (List.length (stripColors (x ++ y)) <= List.length (stripColors x) + List.length y)%nat.
Proof.
  induction x as [x IH] using (induction_ltof1 _ (@List.length ascii)); unfold ltof in IH.
  intros y. destruct x as [|c t]; [apply stripColors_length|].
  unfold stripColors. simpl (_ ++ _). rewrite !ansi_lex_unfold.
  change (c :: t ++ y) with ((c :: t) ++ y).
  destruct (ansi_match (c :: t)) as [n|] eqn:E.
  - pose proof (ansi_match_bounds _ _ E) as B.
    rewrite (ansi_match_app _ y _ E). simpl.
    change (c :: t ++ y) with ((c :: t) ++ y).
    rewrite skipn_app. replace (n - List.length (c :: t))%nat with O by lia. simpl (skipn 0 y).
    apply IH. rewrite length_skipn; cbn [List.length] in *; lia.
  - destruct (ansi_match ((c :: t) ++ y)) as [m|] eqn:E'.
    + simpl. pose proof (ansi_match_bounds _ _ E') as B'.
      destruct (Nat.le_gt_cases m (List.length (c :: t))) as [Hle|Hgt].
      * exfalso. apply ansi_match_firstn in E'. rewrite firstn_app in E'.
        replace (m - List.length (c :: t))%nat with O in E' by lia. rewrite app_nil_r in E'.
        apply (ansi_match_app _ (skipn m (c :: t))) in E'. rewrite firstn_skipn in E'. congruence.
      * change (c :: t ++ y) with ((c :: t) ++ y).
        rewrite skipn_app, skipn_all2 by lia. simpl (_ ++ _).
        pose proof (stripColors_length (skipn (m - List.length (c :: t)) y)) as L.
        unfold stripColors in L. rewrite length_skipn in L. cbn [List.length] in *. lia.
    + simpl. pose proof (IH t ltac:(simpl; lia) y) as L. unfold stripColors in L. lia.
Qed.

Lemma codes_are_matches s : forall c, In c (codes (ansi_lex s)) -> is_code c.
Proof.
  induction s as [s IH] using (induction_ltof1 _ (@List.length ascii)); unfold ltof in IH.
  intros c Hc. destruct s as [|x t]; [destruct Hc|]. rewrite ansi_lex_unfold in Hc.
  destruct (ansi_match (x :: t)) as [n|] eqn:E.
  - pose proof (ansi_match_bounds _ _ E) as B. destruct Hc as [<-|Hc].
    + unfold is_code. rewrite length_firstn. replace (Nat.min n (List.length (x :: t))) with n by lia.
      now apply ansi_match_firstn.
    + apply (IH (skipn n (x :: t))); [rewrite length_skipn; cbn [List.length] in *; lia|exact Hc].
  - apply (IH t); [simpl; lia|exact Hc].
Qed.

Lemma code_boundary c : is_code c -> boundary c = true.
Proof.
  unfold is_code, ansi_match. destruct c as [|e [|l t]]; simpl; try discriminate.
  destruct (Ascii.eqb e ESC) eqn:E; [|discriminate]. apply Ascii.eqb_eq in E. subst e.
  intros _. reflexivity.
Qed.

Lemma code_lex c : is_code c -> ansi_lex c = [TCode c].
Proof.
  intros H. pose proof (code_boundary c H) as Hb.
  destruct c as [|x t]; [discriminate|]. rewrite ansi_lex_unfold. unfold is_code in H. rewrite H.
  rewrite firstn_all, skipn_all. reflexivity.
Qed.

Lemma stripColors_app_code x c : is_code c -> stripColors (x ++ c) = stripColors x.
Proof.
  intros H. rewrite stripColors_app_boundary by (now apply code_boundary).
  unfold stripColors at 2. rewrite code_lex by exact H. simpl. apply app_nil_r.
Qed.

Lemma stripColors_tail x : stripColors (x ++ ellipsis ++ ColorReset) = stripColors x ++ ellipsis.
Proof. rewrite stripColors_app_boundary by reflexivity. reflexivity. Qed.

Lemma RuneCount_length s : (RuneCountInString s <= List.length s)%nat.
Proof.
  induction s as [s IH] using (induction_ltof1 _ (@List.length ascii)); unfold ltof in IH.
  destruct s as [|c t]; [simpl; lia|]. simpl.
  destruct (rune_size c t) as [|[|[|[|[|k]]]]].
  - specialize (IH t ltac:(simpl; lia)). lia.
  - specialize (IH t ltac:(simpl; lia)). lia.
  - destruct t as [|c1 t2]; [lia|]. specialize (IH t2 ltac:(simpl; lia)). simpl. lia.
  - destruct t as [|c1 [|c2 t3]]; [lia|simpl; lia|]. specialize (IH t3 ltac:(simpl; lia)). simpl. lia.
  - destruct t as [|c1 [|c2 [|c3 t4]]]; [lia|simpl; lia|simpl; lia|].
    specialize (IH t4 ltac:(simpl; lia)). simpl. lia.
  - specialize (IH t ltac:(simpl; lia)). lia.
Qed.

Lemma displayWidth_le_strip s : displayWidth s <= Z.of_nat (List.length (stripColors s)).
Proof. unfold displayWidth. apply Nat2Z.inj_le, RuneCount_length. Qed.

Lemma trunc_loop_visible parts ccodes : forall ci textLen targetLen result,
  (forall c, In c ccodes -> is_code c) ->
  0 <= textLen <= targetLen ->
  Z.of_nat (List.length (stripColors result)) <= textLen ->
  Z.of_nat (List.length (stripColors (trunc_loop parts ccodes ci textLen targetLen result)))
    <= targetLen.
Proof.
  induction parts as [|part rest IH]; intros ci textLen targetLen result Hc Ht Hr; simpl.
  - lia.
  - destruct (targetLen <=? textLen) eqn:E1; [lia|]. apply Z.leb_gt in E1.
    destruct (Z.of_nat (List.length part) <=? targetLen - textLen) eqn:E2.
    + apply Z.leb_le in E2.
      assert (Hp : Z.of_nat (List.length (stripColors (result ++ part)))
                   <= textLen + Z.of_nat (List.length part))
        by (pose proof (stripColors_app_le result part); lia).
      destruct (nth_error ccodes ci) as [cc|] eqn:E3.
      * apply IH; [exact Hc|lia|].
        rewrite stripColors_app_code; [exact Hp|]. apply Hc. eapply nth_error_In; exact E3.
      * apply IH; [exact Hc|lia|exact Hp].
    + apply Z.leb_gt in E2.
      pose proof (stripColors_app_le result (firstn (Z.to_nat (targetLen - textLen)) part)) as L.
      rewrite length_firstn in L. lia.
Qed.

(** whatever [truncateString] returns fits the width it was given *)
Lemma truncateString_width s w r : truncateString s w = Some r -> displayWidth r <= w.
Proof.
  unfold truncateString; cbv zeta.
  destruct (displayWidth s <=? w) eqn:E0; [intros [= <-]; now apply Z.leb_le|].
  apply Z.leb_gt in E0.
  destruct (w <=? 3) eqn:E1.
  - destruct (Z.of_nat (List.length (stripColors s)) <=? w) eqn:E2.
    + intros [= <-]. apply Z.leb_le in E2.
      pose proof (displayWidth_le_strip (stripColors s)).
      pose proof (stripColors_length (stripColors s)). lia.
    + unfold go_slice_to. destruct (_ && _)%bool eqn:E3; [|discriminate]. intros [= <-].
      apply andb_true_iff in E3 as [E3 E4]. apply Z.leb_le in E3, E4.
      pose proof (displayWidth_le_strip (firstn (Z.to_nat w) (stripColors s))) as D.
      pose proof (stripColors_length (firstn (Z.to_nat w) (stripColors s))) as L.
      rewrite length_firstn in L. lia.
  - destruct (Z.of_nat (List.length (stripColors s)) <=? w - 3) eqn:E2.
    + intros [= <-]. apply Z.leb_le in E2. pose proof (displayWidth_le_strip s). lia.
    + apply Z.leb_gt in E1. intros [= <-].
      pose proof (displayWidth_le_strip
        (trunc_loop (Split s) (FindAllString s) 0 0 (w - 3) [] ++ ellipsis ++ ColorReset)) as D.
      rewrite stripColors_tail, length_app in D.
      change (List.length ellipsis) with 3%nat in D.
      pose proof (trunc_loop_visible (Split s) (FindAllString s) O 0 (w - 3) []
                    (codes_are_matches s) ltac:(lia) ltac:(simpl; lia)) as V.
      change ("."%char :: "."%char :: "."%char :: ColorReset) with (ellipsis ++ ColorReset).
      lia.
Qed.

(** for a non-negative width [truncateString] does not panic *)
Lemma truncateString_some s w : 0 <= w -> exists r, truncateString s w = Some r.
Proof.
  intros Hw. unfold truncateString; cbv zeta.
  destruct (displayWidth s <=? w) eqn:E0; [eauto|]. apply Z.leb_gt in E0.
  destruct (w <=? 3) eqn:E1; [|destruct (_ <=? w - 3); eauto].
  destruct (Z.of_nat (List.length (stripColors s)) <=? w) eqn:E2; [eauto|].
  apply Z.leb_gt in E2. unfold go_slice_to.
  replace ((0 <=? w) && (w <=? Z.of_nat (List.length (stripColors s))))%bool with true; [eauto|].
  symmetry. apply andb_true_iff. split; apply Z.leb_le; lia.
Qed.

End LayoutFacts.

(* ------------------------------------------------------------------ *)
(** *** Facts about the client *)

Module ClientFacts.
Import Client ClientSpec ClientSamples.

#[local] Arguments failed_after : simpl never.

Lemma str_app_assoc (x y z : string) : ((x ++ y) ++ z)%string = (x ++ y ++ z)%string.
Proof. induction x as [|c x IH]; simpl; [reflexivity|now rewrite IH]. Qed.

Lemma retry_loop_S {St : Type} (fetch : M St (Res APIResponse)) (sleep : Z -> M St unit)
    (k : nat) a m last :
  retry_loop fetch sleep (S k) a m last =
  if negb (a <=? m) then ret (Err (failed_after m last))
  else
    let* _ := (if 0 <? a then sleep (wrap64 (a * Second)) else ret tt) in
    let* r := fetch in
    match r with
    | Ok resp => ret (Ok resp)
    | Err e =>
        if is_client_error e then ret (Err (failed_after m (Some e)))
        else retry_loop fetch sleep k (wrap64 (a + 1)) m (Some e)
    end.
Proof. reflexivity. Qed.

Lemma retry_loop_shape {St : Type} (fetch : M St (Res APIResponse)) (sleep : Z -> M St unit)
    (k : nat) : forall a m last st,
  (exists r, fst (retry_loop fetch sleep k a m last st) = Ok r) \/
  (exists l, fst (retry_loop fetch sleep k a m last st) = Err (failed_after m l) /\
             (l = last \/ exists e, l = Some e)).
Proof.
  induction k as [|k IH]; intros a m last st; cbn [retry_loop].
  - right. exists last. split; [reflexivity|left; reflexivity].
  - destruct (negb (a <=? m)); [right; exists last; split; [reflexivity|left; reflexivity]|].
    unfold bind. destruct ((if 0 <? a then sleep (wrap64 (a * Second)) else ret tt) st) as [u st1].
    destruct (fetch st1) as [[r|e] st2].
    + left. exists r. reflexivity.
    + destruct (is_client_error e).
      * right. exists (Some e). split; [reflexivity|right; eauto].
      * destruct (IH (wrap64 (a + 1)) m (Some e) st2) as [H|[l [H1 H2]]]; [left; exact H|].
        right. exists l. split; [exact H1|]. right. destruct H2 as [->|H2]; eauto.
Qed.

Lemma FetchDevicesWithRetry_2_shape (w : World) :
  (exists r, fst (FetchDevicesWithRetry 2 w) = Ok r) \/
  (exists inner, fst (FetchDevicesWithRetry 2 w) = Err (Wrapped "failed after 3 attempts" inner)).
Proof.
  unfold FetchDevicesWithRetry, retry_with. change (Z.to_nat (2 + 1)) with 3%nat.
  rewrite retry_loop_S. change (negb (0 <=? 2)) with false. change (0 <? 0) with false.
  cbv iota. unfold bind. cbn [ret].
  destruct (FetchDevices w) as [[r|e] w2].
  - left. exists r. reflexivity.
  - destruct (is_client_error e).
    + right. exists e. reflexivity.
    + destruct (retry_loop_shape FetchDevices Sleep 2 (0 + 1) 2 (Some e) w2)
        as [H|[l [H1 [->|[e' ->]]]]]; [left; exact H|right; eexists; exact H1|].
      right. eexists. exact H1.
Qed.

Lemma wrap64_id (z : Z) : - 2 ^ 63 <= z <= MaxInt64 -> wrap64 z = z.
Proof. unfold wrap64, MaxInt64. intros H. rewrite Z.mod_small by lia. lia. Qed.

(** below this bound the waits of the retry loop do not wrap *)
Lemma wait_no_wrap (a m : Z) : 0 <= a <= m -> m * Second <= MaxInt64 ->
  wrap64 (a * Second) = a * Second /\ wrap64 (a + 1) = a + 1.
Proof.
  unfold Second, MaxInt64. intros H1 H2.
  split; apply wrap64_id; unfold MaxInt64; lia.
Qed.

Lemma wrap64_range (z : Z) : - 2 ^ 63 <= wrap64 z <= MaxInt64.
Proof.
  unfold wrap64, MaxInt64.
  pose proof (Z.mod_pos_bound (z + 2 ^ 63) (2 ^ 64) ltac:(lia)). lia.
Qed.

(** with [maxRetries = MaxInt64] the loop condition [attempt <= maxRetries]
    holds for every [int] attempt, so on failures that are not 4xx the loop
    calls the fetch once per unit of fuel, whatever the fuel *)
Lemma retry_loop_MaxInt64_runs (f : nat -> Res APIResponse)
    (Hf : forall i, exists e, f i = Err e /\ is_client_error e = false) :
  forall k a last n sl, - 2 ^ 63 <= a <= MaxInt64 ->
  fst (snd (retry_loop (probe_fetch f) probe_sleep k a MaxInt64 last (n, sl))) = (n + k)%nat.
Proof.
  induction k as [|k IH]; intros a last n sl Ha; [cbn; lia|].
  rewrite retry_loop_S.
  replace (a <=? MaxInt64) with true by (symmetry; apply Z.leb_le; lia).
  cbn [negb]. unfold bind.
  destruct (0 <? a); cbn [probe_sleep probe_fetch ret fst snd];
    destruct (Hf n) as [e [He Hc]]; rewrite He, Hc;
    rewrite IH by apply wrap64_range; lia.
Qed.

Lemma retry_probe_gen (f : nat -> Res APIResponse) (m : Z) (Hw : m * Second <= MaxInt64) :
  forall k n sl last, (1 <= n)%nat -> Z.of_nat n + Z.of_nat k = m + 1 ->
  let res := retry_loop (probe_fetch f) probe_sleep k (Z.of_nat n) m last (n, sl) in
  let n' := fst (snd res) in
  (n <= n' <= n + k)%nat /\
  snd (snd res) = sl ++ waits_from n (n' - n)%nat /\
  (forall i, (n <= i < n' - 1)%nat -> retryable (f i)) /\
  (k = O -> fst res = Err (failed_after m last) /\ n' = n) /\
  ((0 < k)%nat -> (n < n')%nat /\ fst res = final_result m (f (n' - 1)%nat)) /\
  ((0 < k)%nat -> (n' < n + k)%nat -> ~ retryable (f (n' - 1)%nat)).
Proof.
  induction k as [|k IH]; intros n sl last Hn Hk; cbn zeta.
  - simpl. rewrite Nat.sub_diag, app_nil_r.
    repeat split; try lia; intros; lia.
  - assert (Ha : (Z.of_nat n <=? m) = true) by (apply Z.leb_le; lia).
    assert (Hp : (0 <? Z.of_nat n) = true) by (apply Z.ltb_lt; lia).
    destruct (wait_no_wrap (Z.of_nat n) m ltac:(lia) Hw) as [Hw1 Hw2].
    cbn [retry_loop]. rewrite Ha, Hp, Hw1, Hw2.
    cbn [negb bind ret probe_sleep probe_fetch fst snd].
    destruct (f n) as [resp|e] eqn:Ef.
    + cbn [fst snd ret]. replace (S n - n)%nat with 1%nat by lia.
      replace (S n - 1)%nat with n by lia. rewrite Ef. unfold waits_from; cbn [seq map].
      repeat split; try lia; try reflexivity; intros; try lia. intros [e' [He' _]]. discriminate.
    + destruct (is_client_error e) eqn:Ec.
      * cbn [fst snd ret]. replace (S n - n)%nat with 1%nat by lia.
        replace (S n - 1)%nat with n by lia. rewrite Ef. unfold waits_from; cbn [seq map].
        repeat split; try lia; try reflexivity; intros; try lia. intros [e' [He' Hc]]. congruence.
      * replace (Z.of_nat n + 1) with (Z.of_nat (S n)) by lia.
        specialize (IH (S n) (sl ++ [Z.of_nat n * Second]) (Some e) ltac:(lia) ltac:(lia)).
        cbn zeta in IH.
        destruct (retry_loop (probe_fetch f) probe_sleep k (Z.of_nat (S n)) m (Some e)
                    (S n, sl ++ [Z.of_nat n * Second])) as [r [n' sl']] eqn:E.
        simpl in IH |- *.
        destruct IH as (H1 & H2 & H3 & H4 & H5 & H6).
        destruct k as [|k].
        -- destruct (H4 eq_refl) as [Hr Hn']. subst n'.
           replace (S n - n)%nat with 1%nat by lia. replace (S n - 1)%nat with n by lia.
           rewrite Nat.sub_diag in H2. unfold waits_from in *. cbn [seq map] in H2 |- *.
           rewrite H2, app_nil_r, Ef, Hr.
           repeat split; try lia; try reflexivity; intros; try lia.
        -- destruct (H5 ltac:(lia)) as [Hlt Hr].
           split; [lia|]. split.
           { rewrite H2, <- app_assoc. unfold waits_from.
             replace (n' - n)%nat with (S (n' - S n)) by lia. reflexivity. }
           split.
           { intros i Hi. destruct (Nat.eq_dec i n) as [->|Hne].
             - exists e. split; assumption.
             - apply H3. lia. }
           split; [intros; discriminate|].
           split; [intros _; split; [lia|exact Hr]|].
           intros _ Hlt2. apply H6; lia.
Qed.

Lemma is_auth_cookie_spec (c : Cookie) : is_auth_cookie c = true <-> auth_name (ck_Name c).
Proof.
  unfold is_auth_cookie, auth_name. rewrite orb_true_iff, !String.eqb_eq. reflexivity.
Qed.

Lemma find_auth_cookie_none (cs : list Cookie) :
  Forall (fun c => ~ auth_name (ck_Name c)) cs -> find_auth_cookie cs = None.
Proof.
  unfold find_auth_cookie. induction 1 as [|x l Hx _ IH]; simpl; [reflexivity|].
  destruct (is_auth_cookie x) eqn:E; [apply is_auth_cookie_spec in E; contradiction|exact IH].
Qed.

Lemma find_auth_cookie_first (pre : list Cookie) (c : Cookie) (post : list Cookie) :
  Forall (fun c => ~ auth_name (ck_Name c)) pre -> auth_name (ck_Name c) ->
  find_auth_cookie (pre ++ c :: post) = Some c.
Proof.
  unfold find_auth_cookie. induction 1 as [|x l Hx _ IH]; intros Hc; simpl.
  - apply is_auth_cookie_spec in Hc. rewrite Hc. reflexivity.
  - destruct (is_auth_cookie x) eqn:E; [apply is_auth_cookie_spec in E; contradiction|].
    exact (IH Hc).
Qed.

(** [FetchDevicesWithRetry 2] against a server that keeps answering 503:
    three device requests, waits of 1 s and 2 s, the last error wrapped. *)
Lemma FetchDevicesWithRetry_busy_example :
  sent (snd (FetchDevicesWithRetry 2 w_busy)) =
    repeat (DevicesPost (devicesEndpoint ac_logged_in) (Some old_cookie)) 3 /\
  slept (snd (FetchDevicesWithRetry 2 w_busy)) = [Second; 2 * Second] /\
  option_map Error (match fst (FetchDevicesWithRetry 2 w_busy) with
                    | Err e => Some e | Ok _ => None end) =
    Some ("failed after 3 attempts: API error: 503 busy (endpoint: "
          ++ "https://ptaf.example/api/ListPhysicalDevices)")%string.
Proof. vm_compute. repeat split; reflexivity. Qed.

(** a 404 on the first attempt ends the loop after one request *)
Lemma FetchDevicesWithRetry_not_found_example :
  sent (snd (FetchDevicesWithRetry 2 w_not_found)) =
    [DevicesPost (devicesEndpoint ac_logged_in) (Some old_cookie)] /\
  slept (snd (FetchDevicesWithRetry 2 w_not_found)) = [] /\
  fst (FetchDevicesWithRetry 2 w_not_found) =
    Err (failed_after 2 (Some (APIError 404 "not found" (devicesEndpoint ac_logged_in)))).
Proof. vm_compute. repeat split; reflexivity. Qed.

End ClientFacts.

(* ------------------------------------------------------------------ *)
(** *** Facts about the display *)

Module DisplayFacts.
Import Client Display.

(** a [Render] with an error whose message is not empty *)
Lemma Render_fail (dm : DisplayManager) (data : option GroupedDevices) (e : GoError) :
  Error e <> ""%string ->
  Render dm data (Some e) =
    ({| lastData := lastData dm; errorMessage := Error e |},
     [RClearScreen; RHeader; RError (Error e)] ++
     match lastData dm with
     | Some ld =>
         [RSubheader ("Last known data (from " ++ Format (LastUpdated ld) ++ "):");
          RDeviceGroups ld]
     | None => []
     end ++ [RFooter]).
Proof.
  intros He. unfold Render. cbn [errorMessage lastData].
  apply String.eqb_neq in He. rewrite He. cbn [negb]. reflexivity.
Qed.

Lemma Render_fail_shows (dm : DisplayManager) (data : option GroupedDevices) (e : GoError) :
  Error e <> ""%string ->
  lastData (fst (Render dm data (Some e))) = lastData dm /\
  shown_data (snd (Render dm data (Some e))) = lastData dm /\
  In (RError (Error e)) (snd (Render dm data (Some e))).
Proof.
  intros He. rewrite (Render_fail dm data e He). cbn [fst snd lastData].
  destruct (lastData dm); cbn; (split; [reflexivity|split; [reflexivity|]]);
    right; right; left; reflexivity.
Qed.

Lemma render_all_fail (calls : list (option GroupedDevices * option GoError)) :
  Forall (fun c => exists e, snd c = Some e /\ Error e <> ""%string) calls ->
  forall dm,
  lastData (fst (render_all dm calls)) = lastData dm /\
  List.length (snd (render_all dm calls)) = List.length calls /\
  Forall (fun ops => shown_data ops = lastData dm /\ exists msg, In (RError msg) ops)
    (snd (render_all dm calls)).
Proof.
  induction 1 as [|[d oe] cs [e [He Hne]] _ IH]; intros dm; [simpl; auto|].
  cbn [snd] in He. subst oe. cbn [render_all].
  destruct (Render_fail_shows dm d e Hne) as (H1 & H2 & H3).
  destruct (Render dm d (Some e)) as [dm1 ops] eqn:ER. cbn [fst snd] in H1, H2, H3.
  specialize (IH dm1).
  destruct (render_all dm1 cs) as [dm2 screens]. cbn [fst snd] in IH |- *.
  destruct IH as (I1 & I2 & I3). rewrite H1 in I1, I3.
  split; [exact I1|]. split; [cbn; congruence|].
  constructor; [split; [exact H2|eauto]|exact I3].
Qed.

(** a [Render] with an error keeps [lastData], whatever the message *)
Lemma Render_err_lastData (dm : DisplayManager) (data : option GroupedDevices) (e : GoError) :
  lastData (fst (Render dm data (Some e))) = lastData dm.
Proof. reflexivity. Qed.

Lemma render_all_err (calls : list (option GroupedDevices * option GoError)) :
  Forall (fun c => snd c <> None) calls ->
  forall dm,
  lastData (fst (render_all dm calls)) = lastData dm /\
  List.length (snd (render_all dm calls)) = List.length calls.
Proof.
  induction 1 as [|[d oe] cs He _ IH]; intros dm; [simpl; auto|].
  cbn [snd] in He. destruct oe as [e|]; [|contradiction]. cbn [render_all].
  pose proof (Render_err_lastData dm d e) as H1.
  destruct (Render dm d (Some e)) as [dm1 ops]. cbn [fst] in H1.
  specialize (IH dm1). destruct (render_all dm1 cs) as [dm2 screens].
  cbn [fst snd] in IH |- *. destruct IH as [I1 I2].
  split; [congruence|cbn; congruence].
Qed.

End DisplayFacts.

(* ------------------------------------------------------------------ *)
(** *** Grouping claims *)

Module GroupingClaims.
Import Grouping GroupingSpec GroupingFacts Samples.

Lemma in_groups mapOrder now resp g :
  (forall m, Permutation (mapOrder m) m) ->
  In g (LogicalDeviceGroups (GroupDevicesByLogicalDevice mapOrder now resp)) ->
  exists x, first_of (PhysicalDevices resp) (lid x) = Some x /\
    g = analyze_group (fresh_group x (members_of (PhysicalDevices resp) (lid x))).
Proof.
  intros Hperm Hin. apply canon_entry.
  eapply Permutation_in; [apply groups_perm_canon, Hperm|exact Hin].
Qed.

(** C4: grouping partitions the devices: the members of all groups are a
    permutation of the input, every device lies in exactly one group, the one
    whose logical-device id is the device's, and each group holds exactly the
    devices of its id in fetch order. *)
Theorem GroupDevices_partition (mapOrder : GroupMap -> GroupMap)
    (Hperm : forall m, Permutation (mapOrder m) m) (now : Time) (resp : APIResponse) :
  let gs := LogicalDeviceGroups (GroupDevicesByLogicalDevice mapOrder now resp) in
  let devs := PhysicalDevices resp in
  Permutation (List.concat (map g_PhysicalDevices gs)) devs /\
  list_sum (map (fun g => List.length (g_PhysicalDevices g)) gs) = List.length devs /\
  (forall d, In d devs ->
     exists g, In g gs /\ In d (g_PhysicalDevices g) /\
       ld_ID (g_LogicalDevice g) = lid d /\
       (forall g', In g' gs -> In d (g_PhysicalDevices g') -> g' = g)) /\
  (forall g, In g gs -> g_PhysicalDevices g = members_of devs (ld_ID (g_LogicalDevice g))).
Proof.
  intros gs devs.
  assert (HP : Permutation gs (canon_groups devs)) by now apply groups_perm_canon.
  destruct (uniq_ids_spec devs) as [ND IN].
  assert (Hmem : forall g, In g gs -> g_PhysicalDevices g = members_of devs (ld_ID (g_LogicalDevice g))).
  { intros g Hg. destruct (in_groups mapOrder now resp _ Hperm Hg) as (x & _ & ->).
    rewrite analyze_fresh. reflexivity. }
  assert (Hconcat : Permutation (List.concat (map g_PhysicalDevices gs)) devs).
  { eapply Permutation_trans.
    - apply Permutation_concat, Permutation_map, HP.
    - rewrite canon_members. apply concat_members_perm; [exact ND|].
      intros d Hd. apply IN. now exists d. }
  assert (HND : NoDup (map (fun g => ld_ID (g_LogicalDevice g)) gs)).
  { eapply Permutation_NoDup; [apply Permutation_map, Permutation_sym, HP|].
    now rewrite canon_ids. }
  split; [exact Hconcat|]. split.
  - rewrite <- (map_map g_PhysicalDevices (@List.length _)), <- length_concat.
    now apply Permutation_length.
  - split; [|exact Hmem]. intros d Hd.
    assert (Hc : In d (List.concat (map g_PhysicalDevices gs)))
      by (eapply Permutation_in; [apply Permutation_sym, Hconcat|exact Hd]).
    apply in_concat in Hc as (ms & Hms & Hdm). apply in_map_iff in Hms as (g & <- & Hg).
    assert (Hid : ld_ID (g_LogicalDevice g) = lid d).
    { rewrite (Hmem g Hg) in Hdm. apply filter_In in Hdm as [_ E].
      symmetry. now apply String.eqb_eq. }
    exists g. split; [exact Hg|]. split; [exact Hdm|]. split; [exact Hid|].
    intros g' Hg' Hdm'.
    apply (NoDup_map_inj _ _ _ _ HND Hg' Hg).
    rewrite (Hmem g' Hg') in Hdm'. apply filter_In in Hdm' as [_ E].
    apply String.eqb_eq in E. congruence.
Qed.

Lemma GroupDevices_partition_witness :
  (forall m : GroupMap, Permutation m m) /\
  let gs := LogicalDeviceGroups (GroupDevicesByLogicalDevice (fun m => m) "t0"%string resp_scenario) in
  let devs := PhysicalDevices resp_scenario in
  Permutation (List.concat (map g_PhysicalDevices gs)) devs /\
  list_sum (map (fun g => List.length (g_PhysicalDevices g)) gs) = List.length devs /\
  (forall d, In d devs ->
     exists g, In g gs /\ In d (g_PhysicalDevices g) /\
       ld_ID (g_LogicalDevice g) = lid d /\
       (forall g', In g' gs -> In d (g_PhysicalDevices g') -> g' = g)) /\
  (forall g, In g gs -> g_PhysicalDevices g = members_of devs (ld_ID (g_LogicalDevice g))).
Proof.
  split; [intros m; reflexivity|].
  apply (GroupDevices_partition (fun m => m)). intros m; reflexivity.
Defined.

(** C3 (amended): in a cluster group the active node is the LAST member in
    fetch order whose role is active (each active member overwrites the
    previous one), the standby list is exactly the standby members in fetch
    order, and members with neither role are left as plain members; a
    non-cluster group gets no active node and no standby list. *)
Theorem GroupDevices_cluster_roles (mapOrder : GroupMap -> GroupMap)
    (Hperm : forall m, Permutation (mapOrder m) m) (now : Time) (resp : APIResponse) :
  forall g, In g (LogicalDeviceGroups (GroupDevicesByLogicalDevice mapOrder now resp)) ->
    (g_IsCluster g = true ->
       g_ActiveNode g = last_opt (filter is_active (g_PhysicalDevices g)) /\
       g_StandbyNodes g = filter is_standby (g_PhysicalDevices g)) /\
    (g_IsCluster g = false -> g_ActiveNode g = None /\ g_StandbyNodes g = []) /\
    g_PhysicalDevices g = members_of (PhysicalDevices resp) (ld_ID (g_LogicalDevice g)).
Proof.
  intros g Hg. destruct (in_groups mapOrder now resp g Hperm Hg) as (x & _ & ->).
  rewrite analyze_fresh. simpl.
  destruct (is_cluster_topology _); simpl.
  - split; [intros _; split; reflexivity|]. split; [discriminate|reflexivity].
  - split; [discriminate|]. split; [intros _; split; reflexivity|reflexivity].
Qed.

Lemma GroupDevices_cluster_roles_witness :
  (forall m : GroupMap, Permutation m m) /\
  forall g, In g (LogicalDeviceGroups (GroupDevicesByLogicalDevice (fun m => m) "t0"%string resp_two_active)) ->
    (g_IsCluster g = true ->
       g_ActiveNode g = last_opt (filter is_active (g_PhysicalDevices g)) /\
       g_StandbyNodes g = filter is_standby (g_PhysicalDevices g)) /\
    (g_IsCluster g = false -> g_ActiveNode g = None /\ g_StandbyNodes g = []) /\
    g_PhysicalDevices g = members_of (PhysicalDevices resp_two_active) (ld_ID (g_LogicalDevice g)).
Proof.
  split; [intros m; reflexivity|].
  apply (GroupDevices_cluster_roles (fun m => m)). intros m; reflexivity.
Defined.

(** C3 (as stated, refuted): with two active members in one cluster the
    designated active node is not the first active member in fetch order. *)
Lemma GroupDevices_active_not_first :
  exists g, In g (LogicalDeviceGroups (GroupDevicesByLogicalDevice (fun m => m) "t0"%string resp_two_active)) /\
    g_IsCluster g = true /\
    g_ActiveNode g <> find is_active (g_PhysicalDevices g).
Proof.
  eexists. split; [left; reflexivity|]. split; [reflexivity|].
  vm_compute. intros H. injection H. discriminate.
Qed.

(** C10: a group's logical-device record, hence its cluster flag and name,
    is the one carried by the first device of that id in fetch order; the
    records carried by later devices of the same id are ignored. *)
Theorem GroupDevices_first_metadata (mapOrder : GroupMap -> GroupMap)
    (Hperm : forall m, Permutation (mapOrder m) m) (now : Time) (resp : APIResponse) :
  forall g, In g (LogicalDeviceGroups (GroupDevicesByLogicalDevice mapOrder now resp)) ->
    exists pre d post, PhysicalDevices resp = pre ++ d :: post /\
      (forall y, In y pre -> lid y <> ld_ID (g_LogicalDevice g)) /\
      lid d = ld_ID (g_LogicalDevice g) /\
      g_LogicalDevice g = pd_LogicalDevice d /\
      g_IsCluster g = is_cluster_topology (ld_TopologyType (pd_LogicalDevice d)) /\
      ld_Name (g_LogicalDevice g) = ld_Name (pd_LogicalDevice d).
Proof.
  intros g Hg. destruct (in_groups mapOrder now resp g Hperm Hg) as (x & Hf & ->).
  destruct (find_split _ _ _ Hf) as (pre & post & Hsplit & Hpre).
  exists pre, x, post. rewrite analyze_fresh. simpl.
  split; [exact Hsplit|]. split; [|repeat split].
  intros y Hy E. specialize (Hpre y Hy). apply String.eqb_neq in Hpre. apply Hpre, E.
Qed.

Lemma GroupDevices_first_metadata_witness :
  (forall m : GroupMap, Permutation m m) /\
  forall g, In g (LogicalDeviceGroups (GroupDevicesByLogicalDevice (fun m => m) "t0"%string resp_mixed_meta)) ->
    exists pre d post, PhysicalDevices resp_mixed_meta = pre ++ d :: post /\
      (forall y, In y pre -> lid y <> ld_ID (g_LogicalDevice g)) /\
      lid d = ld_ID (g_LogicalDevice g) /\
      g_LogicalDevice g = pd_LogicalDevice d /\
      g_IsCluster g = is_cluster_topology (ld_TopologyType (pd_LogicalDevice d)) /\
      ld_Name (g_LogicalDevice g) = ld_Name (pd_LogicalDevice d).
Proof.
  split; [intros m; reflexivity|].
  apply (GroupDevices_first_metadata (fun m => m)). intros m; reflexivity.
Defined.

(** C5 (amended): two calls on the same input produce the same groups up to
    their order (a Go map is iterated in an unspecified order) and the same
    device total; only the group order and the [LastUpdated] stamp (taken
    from the clock at each call) may differ. *)
Theorem GroupDevices_same_groups (o1 o2 : GroupMap -> GroupMap)
    (H1 : forall m, Permutation (o1 m) m) (H2 : forall m, Permutation (o2 m) m)
    (now1 now2 : Time) (resp : APIResponse) :
  Permutation (LogicalDeviceGroups (GroupDevicesByLogicalDevice o1 now1 resp))
              (LogicalDeviceGroups (GroupDevicesByLogicalDevice o2 now2 resp)) /\
  TotalDevices (GroupDevicesByLogicalDevice o1 now1 resp) =
  TotalDevices (GroupDevicesByLogicalDevice o2 now2 resp).
Proof.
  split; [|reflexivity].
  eapply Permutation_trans; [apply groups_perm_canon, H1|].
  apply Permutation_sym, groups_perm_canon, H2.
Qed.

Lemma GroupDevices_same_groups_witness :
  (forall m : GroupMap, Permutation m m) /\ (forall m : GroupMap, Permutation (rev m) m) /\
  Permutation (LogicalDeviceGroups (GroupDevicesByLogicalDevice (fun m => m) "t0"%string resp_scenario))
              (LogicalDeviceGroups (GroupDevicesByLogicalDevice (@rev _) "t1"%string resp_scenario)) /\
  TotalDevices (GroupDevicesByLogicalDevice (fun m => m) "t0"%string resp_scenario) =
  TotalDevices (GroupDevicesByLogicalDevice (@rev _) "t1"%string resp_scenario).
Proof.
  split; [intros m; reflexivity|]. split; [intros m; apply Permutation_sym, Permutation_rev|].
  apply (GroupDevices_same_groups (fun m => m) (@rev _)).
  - intros m; reflexivity.
  - intros m; apply Permutation_sym, Permutation_rev.
Defined.

(** C5 (as stated, refuted): two calls on the same input, the map iterated in
    two different orders, give structurally different outputs. *)
Lemma GroupDevices_not_idempotent :
  (forall m : GroupMap, Permutation (rev m) m) /\
  GroupDevicesByLogicalDevice (fun m => m) "t0"%string resp_scenario <>
  GroupDevicesByLogicalDevice (@rev _) "t0"%string resp_scenario.
Proof.
  split; [intros m; apply Permutation_sym, Permutation_rev|].
  intros H. apply (f_equal (fun o => map (fun g => ld_ID (g_LogicalDevice g)) (LogicalDeviceGroups o))) in H.
  vm_compute in H. discriminate.
Qed.

End GroupingClaims.

(* ------------------------------------------------------------------ *)
(** *** Layout claims *)

Module LayoutClaims.
Import Layout LayoutSpec LayoutFacts.

(** C8: truncation is idempotent: truncating the result of
    [truncateString s w] to the same width [w] returns it unchanged (and a
    panicking first call stays a panic). *)
Theorem truncateString_idempotent (s : bytes) (w : Z) :
  match truncateString s w with
  | Some r => truncateString r w
  | None => None
  end = truncateString s w.
Proof.
  destruct (truncateString s w) as [r|] eqn:E; [|reflexivity].
  apply truncateString_width in E.
  unfold truncateString; cbv zeta. apply Z.leb_le in E. now rewrite E.
Qed.

(** C9: for a non-negative budget, a string wider than the budget is cut to
    a display width (escape sequences excluded) of at most the budget, and a
    string that fits is returned unchanged. *)
Theorem truncateString_fits (s : bytes) (maxLen : Z) (Hmax : 0 <= maxLen) :
  (maxLen < displayWidth s ->
     exists r, truncateString s maxLen = Some r /\ displayWidth r <= maxLen) /\
  (displayWidth s <= maxLen -> truncateString s maxLen = Some s).
Proof.
  split.
  - intros _. destruct (truncateString_some s maxLen Hmax) as [r Hr].
    exists r. split; [exact Hr|]. exact (truncateString_width s maxLen r Hr).
  - intros H. unfold truncateString; cbv zeta. apply Z.leb_le in H. now rewrite H.
Qed.

Lemma truncateString_fits_witness :
  0 <= 20 /\
  (20 < displayWidth (b "very-long-device-name-1234") ->
     exists r, truncateString (b "very-long-device-name-1234") 20 = Some r /\ displayWidth r <= 20) /\
  (displayWidth (b "very-long-device-name-1234") <= 20 ->
     truncateString (b "very-long-device-name-1234") 20 = Some (b "very-long-device-name-1234")).
Proof.
  split; [lia|]. apply truncateString_fits. lia.
Defined.

End LayoutClaims.

(* ------------------------------------------------------------------ *)
(** *** Claims about the client *)

Module ClientClaims.
Import Client ClientSpec ClientSamples ClientFacts.

#[local] Arguments failed_after : simpl never.

(** C2: the retry loop of [FetchDevicesWithRetry maxRetries], for
    [maxRetries >= 0] small enough that a wait of [maxRetries] seconds fits
    in a [time.Duration] ([maxRetries <= 9223372036]), run on a fetch whose
    [i]-th call returns [f i]: it calls the fetch between 1 and
    [maxRetries+1] times; before the call of attempt [a > 0] it waits [a]
    seconds; it calls again only after a failure that is not a 4xx
    [APIError]; it returns the last call's result, a failure being wrapped
    as "failed after <maxRetries+1> attempts: ..."; when every call fails
    with a non-4xx error it makes exactly [maxRetries+1] calls; a 4xx
    [APIError] on the first call stops it after that call. *)
Theorem FetchDevicesWithRetry_policy (f : nat -> Res APIResponse) (maxRetries : Z)
    (Hm : 0 <= maxRetries) (Hw : maxRetries * Second <= MaxInt64) :
  (forall e, Error (failed_after maxRetries (Some e)) =
     ("failed after " ++ Z_to_string (maxRetries + 1) ++ " attempts: " ++ Error e)%string) /\
  let res := retry_with (probe_fetch f) probe_sleep maxRetries (O, []) in
  let calls := fst (snd res) in
  (1 <= calls <= Z.to_nat (maxRetries + 1))%nat /\
  snd (snd res) = waits_from 1 (calls - 1) /\
  (forall i, (i < calls - 1)%nat -> retryable (f i)) /\
  fst res = final_result maxRetries (f (calls - 1)%nat) /\
  ((forall i, (i < Z.to_nat (maxRetries + 1))%nat -> retryable (f i)) ->
     calls = Z.to_nat (maxRetries + 1)) /\
  ((exists e, f O = Err e /\ is_client_error e = true) -> calls = 1%nat).
Proof.
  split.
  { intros e. unfold failed_after. rewrite wrap64_id by (unfold Second, MaxInt64 in *; lia).
    cbn [Error]. now rewrite !str_app_assoc. }
  cbn zeta. unfold retry_with.
  replace (Z.to_nat (maxRetries + 1)) with (S (Z.to_nat maxRetries)) by lia.
  cbn [retry_loop].
  replace (0 <=? maxRetries) with true by (symmetry; apply Z.leb_le; lia).
  change (0 <? 0) with false.
  cbn [negb bind ret probe_fetch fst snd].
  destruct (f O) as [resp|e] eqn:E0.
  - cbn [fst snd ret]. change (1 - 1)%nat with O. rewrite E0.
    split; [lia|]. split; [reflexivity|]. split; [intros; lia|]. split; [reflexivity|].
    split; [|intros; reflexivity].
    intros Hall. destruct (Hall O ltac:(lia)) as [e [He _]]. congruence.
  - destruct (is_client_error e) eqn:Ec.
    + cbn [fst snd ret]. change (1 - 1)%nat with O. rewrite E0.
      split; [lia|]. split; [reflexivity|]. split; [intros; lia|]. split; [reflexivity|].
      split; [|intros; reflexivity].
      intros Hall. destruct (Hall O ltac:(lia)) as [e' [He' Hc]]. congruence.
    + change (wrap64 (0 + 1)) with (Z.of_nat 1).
      pose proof (retry_probe_gen f maxRetries Hw (Z.to_nat maxRetries) 1 [] (Some e)
                    ltac:(lia) ltac:(lia)) as G.
      cbn zeta in G.
      destruct (retry_loop (probe_fetch f) probe_sleep (Z.to_nat maxRetries) (Z.of_nat 1)
                  maxRetries (Some e) (1%nat, [])) as [r [n' sl']] eqn:E.
      cbn [fst snd] in G |- *.
      destruct G as (H1 & H2 & H3 & H4 & H5 & H6).
      split; [lia|]. split; [exact H2|].
      split.
      { intros i Hi. destruct i as [|i].
        - exists e. split; assumption.
        - apply H3. lia. }
      destruct (Nat.eq_dec (Z.to_nat maxRetries) O) as [Hk|Hk].
      * destruct (H4 Hk) as [Hr Hn']. subst n'. rewrite Hr.
        change (1 - 1)%nat with O. rewrite E0.
        split; [reflexivity|]. split; [lia|].
        intros [e' [He' Hc]]. congruence.
      * destruct (H5 ltac:(lia)) as [Hlt Hr].
        split; [exact Hr|]. split.
        { intros Hall. destruct (Nat.lt_ge_cases n' (1 + Z.to_nat maxRetries)) as [Hl|Hl].
          - exfalso. apply (H6 ltac:(lia) Hl). apply Hall. lia.
          - lia. }
        intros [e' [He' Hc]]. congruence.
Qed.

Lemma FetchDevicesWithRetry_policy_witness :
  0 <= 2 /\ 2 * Second <= MaxInt64 /\
  (let f := fun _ : nat => @Err APIResponse (APIError 503 "busy" "https://h/ListPhysicalDevices") in
   let res := retry_with (probe_fetch f) probe_sleep 2 (O, []) in
   let calls := fst (snd res) in
   (1 <= calls <= Z.to_nat (2 + 1))%nat /\
   snd (snd res) = waits_from 1 (calls - 1) /\
   (forall i, (i < calls - 1)%nat -> retryable (f i)) /\
   fst res = final_result 2 (f (calls - 1)%nat) /\
   ((forall i, (i < Z.to_nat (2 + 1))%nat -> retryable (f i)) ->
      calls = Z.to_nat (2 + 1)) /\
   ((exists e, f O = Err e /\ is_client_error e = true) -> calls = 1%nat)).
Proof.
  split; [lia|]. split; [vm_compute; discriminate|].
  exact (proj2 (FetchDevicesWithRetry_policy
           (fun _ => Err (APIError 503 "busy" "https://h/ListPhysicalDevices")) 2
           ltac:(lia) ltac:(vm_compute; discriminate))).
Defined.

(** C2 (as the spec states it, counterexample): Go's [int] wraps, so with
    [maxRetries = MaxInt64] the attempt count [maxRetries+1] in the error
    is -9223372036854775808; here a 404 on the first call stops the loop
    after one request.  And since every [int] is at most [MaxInt64], a fetch
    that keeps failing with 503 is called as often as the fuel allows, for
    every fuel: the Go loop never exits, so "exactly maxRetries+1 calls"
    fails too. *)
Lemma FetchDevicesWithRetry_MaxInt64_count :
  (sent (snd (FetchDevicesWithRetry MaxInt64 w_not_found)) =
    [DevicesPost (devicesEndpoint ac_logged_in) (Some old_cookie)] /\
  option_map Error (match fst (FetchDevicesWithRetry MaxInt64 w_not_found) with
                    | Err e => Some e | Ok _ => None end) =
    Some ("failed after -9223372036854775808 attempts: API error: 404 not found (endpoint: "
          ++ "https://ptaf.example/api/ListPhysicalDevices)")%string) /\
  (forall k : nat,
     fst (snd (retry_loop (probe_fetch (fun _ => Err (APIError 503 "busy" "https://h/")))
                 probe_sleep k 0 MaxInt64 None (O, []))) = k).
Proof.
  split.
  2:{ intros k. apply retry_loop_MaxInt64_runs; [|unfold MaxInt64; lia].
      intros _. eexists. split; reflexivity. }
  unfold FetchDevicesWithRetry, retry_with.
  change (MaxInt64 + 1) with (Z.succ MaxInt64).
  rewrite Z2Nat.inj_succ by (unfold MaxInt64; lia).
  generalize (Z.to_nat MaxInt64) as k. intros k.
  rewrite retry_loop_S. vm_compute. split; reflexivity.
Qed.

(** C1: [FetchDevices] on an authenticated client whose first device
    request is sent (its endpoint passes [http.NewRequest]) and answered
    401: it clears the flag and logs in once with the stored credentials.
    If [http.NewRequest] rejects the login endpoint, nothing more is sent,
    the client stays unauthenticated and the call fails with "failed to
    re-authenticate: failed to create login request: ...".  If that login
    is refused, nothing more is sent, the
    client stays unauthenticated and the login's error is returned, wrapped
    as "failed to re-authenticate: ...".  If it is accepted, the device
    request is sent once more with the new cookie, the client stays
    authenticated, and the call returns the parsed device list when that
    answer is a 200 with a decodable body, and otherwise its error wrapped as
    "failed after re-authentication: ...". *)
Theorem FetchDevices_reauth (w : World) (cs1 : list Cookie) (body1 : string)
    (json1 : Decoded) (o2 o3 : Outcome) (rest : list Outcome)
    (Hauth : authenticated (client w) = true)
    (Hurl : url_error w (devicesEndpoint (client w)) = None)
    (Hsrv : server w = HttpResp 401 cs1 body1 json1 :: o2 :: o3 :: rest) :
  let ac := client w in
  let dreq := DevicesPost (devicesEndpoint ac) (authCookie ac) in
  let lreq := LoginPost (loginEndpoint ac) (Username (config ac)) (Password (config ac)) in
  let res := FetchDevices w in
  match url_error w (loginEndpoint ac) with
  | Some m =>
      sent (snd res) = sent w ++ [dreq] /\
      authenticated (client (snd res)) = false /\
      fst res = Err (Wrapped "failed to re-authenticate"
                       (Wrapped "failed to create login request" (ErrorString m)))
  | None =>
  match login_accepts o2 with
  | None =>
      sent (snd res) = sent w ++ [dreq; lreq] /\
      authenticated (client (snd res)) = false /\
      fst res = Err (Wrapped "failed to re-authenticate" (login_error (loginEndpoint ac) o2))
  | Some c =>
      sent (snd res) = sent w ++ [dreq; lreq; DevicesPost (devicesEndpoint ac) (Some c)] /\
      authenticated (client (snd res)) = true /\
      authCookie (client (snd res)) = Some c /\
      fst res = match devices_result (devicesEndpoint ac) o3 with
                | Ok r => Ok r
                | Err e => Err (Wrapped "failed after re-authentication" e)
                end
  end
  end.
Proof.
  destruct w as [ac srv snt sl ue]; cbn [client server sent url_error] in *; subst srv.
  destruct ac as [cfg dep lep ck fl]; cbn [authenticated devicesEndpoint] in Hauth, Hurl; subst fl.
  cbn zeta.
  unfold FetchDevices, makeDevicesRequest, Login, NewRequest, bind, ret, get_client, set_client, Do.
  cbn. rewrite Hurl. cbn.
  destruct (ue lep) as [ml|] eqn:El; cbn.
  { repeat split; reflexivity. }
  destruct o2 as [m2|code2 cs2 b2 j2]; cbn; rewrite ?Hurl; cbn.
  - rewrite <- !app_assoc. repeat split; reflexivity.
  - unfold login_accepts, login_error.
    destruct (code2 =? 200) eqn:E2; cbn; rewrite ?Hurl; cbn.
    + destruct (find_auth_cookie cs2) as [c|] eqn:Ec; cbn; rewrite ?Hurl; cbn.
      * destruct o3 as [m3|code3 cs3 b3 j3]; cbn; rewrite ?Hurl; cbn.
        -- rewrite <- !app_assoc. repeat split; reflexivity.
        -- unfold devices_result.
           destruct (code3 =? 401 ); cbn; rewrite ?Hurl; cbn; rewrite ?Hurl; cbn.
           ++ rewrite <- !app_assoc. repeat split; reflexivity.
           ++ destruct (code3 =? 200 ); cbn; rewrite ?Hurl; cbn; rewrite ?Hurl; cbn.
              ** destruct j3; cbn; rewrite <- !app_assoc; repeat split; reflexivity.
              ** rewrite <- !app_assoc. repeat split; reflexivity.
      * rewrite <- !app_assoc. repeat split; reflexivity.
    + rewrite <- !app_assoc. repeat split; reflexivity.
Qed.

Lemma FetchDevices_reauth_witness :
  authenticated (client w_reauth) = true /\
  url_error w_reauth (devicesEndpoint (client w_reauth)) = None /\
  server w_reauth = [HttpResp 401 [] "" bad_json; login_ok; devices_ok] /\
  (sent (snd (FetchDevices w_reauth)) =
     [DevicesPost (devicesEndpoint ac_logged_in) (Some old_cookie);
      LoginPost (loginEndpoint ac_logged_in) "admin" "secret";
      DevicesPost (devicesEndpoint ac_logged_in) (Some new_cookie)] /\
   authenticated (client (snd (FetchDevices w_reauth))) = true /\
   authCookie (client (snd (FetchDevices w_reauth))) = Some new_cookie /\
   fst (FetchDevices w_reauth) = Ok resp0).
Proof.
  split; [reflexivity|]. split; [reflexivity|]. split; [reflexivity|].
  exact (FetchDevices_reauth w_reauth [] "" bad_json login_ok devices_ok [] eq_refl eq_refl
           eq_refl).
Defined.

(** C6 (as the spec states it, counterexample): the cookie name is compared
    exactly, so a 200 answer whose only cookie is "authorization" leaves
    the client unauthenticated and [Login] fails. *)
Lemma Login_cookie_name_case_sensitive :
  fst (Login "admin" "secret" w_login_lower) =
    Some (ErrorString "no Authorization cookie received from login response") /\
  authenticated (client (snd (Login "admin" "secret" w_login_lower))) = false.
Proof. split; reflexivity. Qed.

(** C6: [Login] on a client that is not yet authenticated.  When
    [http.NewRequest] rejects the login endpoint (its [url.Parse] fails),
    it sends nothing, changes nothing and fails with "failed to create
    login request: ...".  Otherwise it sends one login request.  A
    transport error, a status other than 200, or a 200 without a cookie
    named exactly "Authorization" or "Autorization" makes it fail and
    leaves the client as it was (not authenticated).  A 200 with such a
    cookie succeeds: the first such cookie is stored and the client is
    marked authenticated. *)
Theorem Login_result (w : World) (login password : string) (o : Outcome)
    (rest : list Outcome)
    (Hfresh : authenticated (client w) = false) (Hsrv : server w = o :: rest) :
  let ac := client w in
  let res := Login login password w in
  (forall m, url_error w (loginEndpoint ac) = Some m ->
     res = (Some (Wrapped "failed to create login request" (ErrorString m)), w)) /\
  (url_error w (loginEndpoint ac) = None ->
  sent (snd res) = sent w ++ [LoginPost (loginEndpoint ac) login password] /\
  (forall m, o = TransportErr m ->
     fst res = Some (Wrapped "failed to execute login request" (ErrorString m)) /\
     client (snd res) = ac) /\
  (forall code cookies body json, o = HttpResp code cookies body json -> code <> 200 ->
     fst res = Some (APIError code body (loginEndpoint ac)) /\ client (snd res) = ac) /\
  (forall cookies body json, o = HttpResp 200 cookies body json ->
     Forall (fun c => ~ auth_name (ck_Name c)) cookies ->
     fst res = Some (ErrorString "no Authorization cookie received from login response") /\
     client (snd res) = ac) /\
  (forall cookies body json pre c post, o = HttpResp 200 cookies body json ->
     cookies = pre ++ c :: post ->
     Forall (fun c => ~ auth_name (ck_Name c)) pre -> auth_name (ck_Name c) ->
     fst res = None /\ authenticated (client (snd res)) = true /\
     authCookie (client (snd res)) = Some c)).
Proof.
  destruct w as [ac srv snt sl ue]; cbn [client server sent url_error] in *; subst srv.
  destruct ac as [cfg' dep lep ck fl]; cbn [authenticated] in Hfresh; subst fl.
  cbn zeta. unfold Login, NewRequest, bind, ret, get_client, set_client, Do.
  cbn [loginEndpoint client url_error].
  split. { intros m Hm. rewrite Hm. reflexivity. }
  intros Hn. rewrite Hn.
  split.
  { destruct o as [m|code cs b j]; cbn -[find_auth_cookie]; [reflexivity|].
    destruct (code =? 200); cbn -[find_auth_cookie]; [|reflexivity].
    destruct (find_auth_cookie cs); reflexivity. }
  split. { intros m ->. cbn. split; reflexivity. }
  split.
  { intros code cs b j -> Hc. apply Z.eqb_neq in Hc. cbn -[find_auth_cookie].
    rewrite Hc. split; reflexivity. }
  split.
  { intros cs b j -> Hn'. cbn -[find_auth_cookie].
    rewrite (find_auth_cookie_none cs Hn'). split; reflexivity. }
  intros cs b j pre c post -> -> Hpre Hc. cbn -[find_auth_cookie].
  rewrite (find_auth_cookie_first pre c post Hpre Hc). repeat split; reflexivity.
Qed.

Lemma Login_result_witness :
  authenticated (client w_login) = false /\ server w_login = [login_ok] /\
  fst (Login "admin" "secret" w_login) = None /\
  authenticated (client (snd (Login "admin" "secret" w_login))) = true /\
  authCookie (client (snd (Login "admin" "secret" w_login))) = Some new_cookie /\
  Login "admin" "secret" w_bad_url =
    (Some (Wrapped "failed to create login request"
             (ErrorString (bad_port_error "http://ptaf.example:api/Login"))), w_bad_url).
Proof.
  split; [reflexivity|]. split; [reflexivity|].
  destruct (Login_result w_login "admin" "secret" login_ok [] eq_refl eq_refl)
    as (_ & H0).
  destruct (H0 eq_refl) as (_ & _ & _ & _ & H).
  destruct (H [new_cookie] ""%string bad_json [] new_cookie [] eq_refl eq_refl (Forall_nil _)
              (or_intror eq_refl)) as (H1 & H2 & H3).
  split; [exact H1|]. split; [exact H2|]. split; [exact H3|].
  destruct (Login_result w_bad_url "admin" "secret" login_ok [] eq_refl eq_refl) as (H4 & _).
  exact (H4 _ eq_refl).
Defined.

End ClientClaims.

(* ------------------------------------------------------------------ *)
(** *** Claims about the display *)

Module DisplayClaims.
Import Client Display ClientSamples DisplayFacts ClientFacts.

(** C7: a [Render] with an error keeps [lastData], whatever the error; a
    [Render] without error replaces [lastData] by its data.  Every error
    the scheduler hands to [Render] comes from [FetchDevicesWithRetry(2)];
    with such an error [Render] draws the error banner and, beneath it, the
    retained data behind a subheader with its own timestamp.  So after a
    successful render of [d], any run of renders with errors keeps
    [lastData = d], and when those errors come from [FetchDevicesWithRetry(2)]
    each of them shows [d] under an error banner. *)
Theorem Render_keeps_last_data (dm : DisplayManager) (data d : option GroupedDevices)
    (e : GoError) (w : World) (calls : list (option GroupedDevices * option GoError))
    (Hfail : Forall (fun c => snd c <> None) calls) :
  lastData (fst (Render dm data (Some e))) = lastData dm /\
  lastData (fst (Render dm d None)) = d /\
  (forall e', fst (FetchDevicesWithRetry 2 w) = Err e' ->
     Render dm data (Some e') =
       ({| lastData := lastData dm; errorMessage := Error e' |},
        [RClearScreen; RHeader; RError (Error e')] ++
        match lastData dm with
        | Some ld =>
            [RSubheader ("Last known data (from " ++ Format (LastUpdated ld) ++ "):");
             RDeviceGroups ld]
        | None => []
        end ++ [RFooter])) /\
  (let dm1 := fst (Render dm d None) in
   lastData (fst (render_all dm1 calls)) = d /\
   List.length (snd (render_all dm1 calls)) = List.length calls /\
   (Forall (fun c => exists w' e', snd c = Some e' /\ fst (FetchDevicesWithRetry 2 w') = Err e')
      calls ->
    Forall (fun ops => shown_data ops = d /\ exists msg, In (RError msg) ops)
      (snd (render_all dm1 calls)))).
Proof.
  split; [exact (Render_err_lastData dm data e)|].
  split; [reflexivity|].
  split.
  { intros e' He'. apply Render_fail.
    destruct (FetchDevicesWithRetry_2_shape w) as [[r Hr]|[inner Hi]]; [congruence|].
    rewrite He' in Hi. injection Hi as ->. cbn. discriminate. }
  cbn zeta.
  destruct (render_all_err calls Hfail (fst (Render dm d None))) as [H1 H2].
  split; [exact H1|]. split; [exact H2|].
  intros Hsrc.
  refine (proj2 (proj2 (render_all_fail calls _ (fst (Render dm d None))))).
  refine (Forall_impl _ _ Hsrc).
  intros c (w' & e' & Hc & He'). exists e'. split; [exact Hc|].
  destruct (FetchDevicesWithRetry_2_shape w') as [[r Hr]|[inner Hi]]; [congruence|].
  rewrite He' in Hi. injection Hi as ->. cbn. discriminate.
Qed.

Lemma Render_keeps_last_data_witness :
  let calls := [(None, Some (Wrapped "failed after 3 attempts" (ErrorString "EOF")));
                (Some gd1, Some (ErrorString ""))] in
  Forall (fun c => snd c <> None) calls /\
  lastData (fst (render_all (fst (Render dm_with_data (Some gd1) None)) calls)) = Some gd1.
Proof.
  cbv zeta.
  assert (Hf : Forall (fun c : option GroupedDevices * option GoError => snd c <> None)
                 [(None, Some (Wrapped "failed after 3 attempts" (ErrorString "EOF")));
                  (Some gd1, Some (ErrorString ""))])
    by (repeat constructor; discriminate).
  split; [exact Hf|].
  exact (proj1 (proj2 (proj2 (proj2 (Render_keeps_last_data dm_with_data None (Some gd1)
           (ErrorString "boom") w_busy _ Hf))))).
Defined.

End DisplayClaims.

(* ================================================================== *)
(** * Further properties of the client, the scheduler and the display *)
(* ================================================================== *)


Module ClientOpsFacts.
Import Client ClientSpec ClientOps ClientOpsSpec ClientFacts.

#[local] Arguments failed_after : simpl never.


Lemma Do_eq (r : Request) (w : World) :
  Do r w = (next_outcome w, after_request w r (client w)).
Proof. reflexivity. Qed.

Lemma NewRequest_eq (u : string) (w : World) : NewRequest u w = (url_error w u, w).
Proof. reflexivity. Qed.

Ltac split_ifs :=
  repeat match goal with
         | |- context [if ?c then _ else _] => destruct c
         end.

Lemma makeDevicesRequest_eq (w : World) :
  url_error w (devicesEndpoint (client w)) = None ->
  makeDevicesRequest w =
    (devices_result (devicesEndpoint (client w)) (next_outcome w),
     after_request w (DevicesPost (devicesEndpoint (client w)) (authCookie (client w))) (client w)).
Proof.
  intros Hu. unfold makeDevicesRequest, bind, get_client. cbv beta iota.
  rewrite NewRequest_eq, Hu. cbv beta iota. rewrite Do_eq.
  unfold devices_result. destruct (next_outcome w) as [m|code cs body j]; [reflexivity|].
  split_ifs; try reflexivity. destruct j; reflexivity.
Qed.

Lemma makeDevicesRequest_bad_url (w : World) (m : string) :
  url_error w (devicesEndpoint (client w)) = Some m ->
  makeDevicesRequest w = (Err (Wrapped "failed to create request" (ErrorString m)), w).
Proof.
  intros Hu. unfold makeDevicesRequest, bind, get_client. cbv beta iota.
  rewrite NewRequest_eq, Hu. reflexivity.
Qed.

Lemma makeTestRequest_eq (Status : Z -> string) (w : World) :
  url_error w (devicesEndpoint (client w)) = None ->
  makeTestRequest Status w =
    (test_result Status (devicesEndpoint (client w)) (next_outcome w),
     after_request w (DevicesPost (devicesEndpoint (client w)) (authCookie (client w))) (client w)).
Proof.
  intros Hu. unfold makeTestRequest, bind, get_client. cbv beta iota.
  rewrite NewRequest_eq, Hu. cbv beta iota. rewrite Do_eq.
  unfold test_result. destruct (next_outcome w) as [m|code cs body j]; [reflexivity|].
  split_ifs; reflexivity.
Qed.

Lemma makeTestRequest_bad_url (Status : Z -> string) (w : World) (m : string) :
  url_error w (devicesEndpoint (client w)) = Some m ->
  makeTestRequest Status w = (Some (Wrapped "failed to create test request" (ErrorString m)), w).
Proof.
  intros Hu. unfold makeTestRequest, bind, get_client. cbv beta iota.
  rewrite NewRequest_eq, Hu. reflexivity.
Qed.

Lemma Login_eq (login password : string) (w : World) :
  authenticated (client w) = false ->
  url_error w (loginEndpoint (client w)) = None ->
  Login login password w =
    let lreq := LoginPost (loginEndpoint (client w)) login password in
    match login_accepts (next_outcome w) with
    | Some c =>
        (None, after_request w lreq (set_authenticated (set_authCookie (client w) (Some c)) true))
    | None =>
        (Some (login_error (loginEndpoint (client w)) (next_outcome w)),
         after_request w lreq (client w))
    end.
Proof.
  intros H Hu. unfold Login, bind, get_client. cbv beta iota.
  rewrite NewRequest_eq, Hu. cbv beta iota. rewrite Do_eq. cbv zeta.
  unfold login_accepts, login_error.
  destruct (next_outcome w) as [m|code cs body j]; [reflexivity|].
  destruct (code =? 200); [|reflexivity]. cbn [negb].
  destruct (find_auth_cookie cs) as [c|]; [reflexivity|].
  unfold ret. cbn. rewrite H. reflexivity.
Qed.

Lemma Login_bad_url (login password : string) (w : World) (m : string) :
  url_error w (loginEndpoint (client w)) = Some m ->
  Login login password w =
    (Some (Wrapped "failed to create login request" (ErrorString m)), w).
Proof.
  intros Hu. unfold Login, bind, get_client. cbv beta iota.
  rewrite NewRequest_eq, Hu. reflexivity.
Qed.

Lemma FetchDevices_unauth (w : World) :
  authenticated (client w) = false -> FetchDevices w = (Err not_authenticated, w).
Proof. intros H. unfold FetchDevices, bind, get_client. rewrite H. reflexivity. Qed.

Lemma FetchDevices_bad_url (w : World) (m : string) :
  authenticated (client w) = true ->
  url_error w (devicesEndpoint (client w)) = Some m ->
  FetchDevices w = (Err (Wrapped "failed to create request" (ErrorString m)), w).
Proof.
  intros Ha Hu. unfold FetchDevices at 1. unfold bind at 1. unfold get_client at 1.
  rewrite Ha. cbn [negb]. unfold bind at 1. rewrite (makeDevicesRequest_bad_url w m Hu).
  reflexivity.
Qed.

Lemma FetchDevices_not401 (w : World) :
  authenticated (client w) = true ->
  url_error w (devicesEndpoint (client w)) = None ->
  (forall cs body j, next_outcome w <> HttpResp 401 cs body j) ->
  FetchDevices w =
    (devices_result (devicesEndpoint (client w)) (next_outcome w),
     after_request w (DevicesPost (devicesEndpoint (client w)) (authCookie (client w))) (client w)).
Proof.
  intros Ha Hu Hn. unfold FetchDevices at 1. unfold bind at 1. unfold get_client at 1.
  rewrite Ha. cbn [negb]. unfold bind at 1. rewrite (makeDevicesRequest_eq w Hu).
  destruct (devices_result _ (next_outcome w)) as [r|e] eqn:E; [reflexivity|].
  destruct e as [code msg ep| | |]; try reflexivity.
  destruct (code =? 401) eqn:C; [|reflexivity]. exfalso. apply Z.eqb_eq in C. subst code.
  unfold devices_result in E.
  destruct (next_outcome w) as [m|c cs body j] eqn:O; [discriminate|].
  destruct (c =? 401) eqn:C1; [apply Z.eqb_eq in C1; subst c; exact (Hn cs body j eq_refl)|].
  destruct (negb (c =? 200)); [|destruct j; discriminate].
  injection E as E1 _ _. subst c. discriminate.
Qed.

Lemma FetchDevices_401 (w : World) (cs : list Cookie) (body : string) (j : Decoded) :
  authenticated (client w) = true ->
  url_error w (devicesEndpoint (client w)) = None ->
  next_outcome w = HttpResp 401 cs body j ->
  let ac := client w in
  let w1 := after_request w (DevicesPost (devicesEndpoint ac) (authCookie ac))
              (set_authenticated ac false) in
  FetchDevices w =
    let (le, w2) := Login (Username (config ac)) (Password (config ac)) w1 in
    match le with
    | Some e' => (Err (Wrapped "failed to re-authenticate" e'), w2)
    | None =>
        let (r, w3) := makeDevicesRequest w2 in
        match r with
        | Ok resp => (Ok resp, w3)
        | Err e2 => (Err (Wrapped "failed after re-authentication" e2), w3)
        end
    end.
Proof.
  intros Ha Hu Ho. cbv zeta. unfold FetchDevices at 1. unfold bind at 1. unfold get_client at 1.
  rewrite Ha. cbn [negb]. unfold bind at 1. rewrite (makeDevicesRequest_eq w Hu), Ho.
  cbn [devices_result Z.eqb Pos.eqb].
  unfold bind, get_client, set_client, ret. cbn [client server sent slept url_error].
  destruct (Login _ _ _) as [[e'|] w2]; [reflexivity|].
  destruct (makeDevicesRequest w2) as [[r|e2] w3]; reflexivity.
Qed.

(** the re-authentication path never returns a bare [*APIError] *)
Lemma FetchDevices_401_wrapped (w : World) (cs : list Cookie) (body : string) (j : Decoded) :
  authenticated (client w) = true ->
  url_error w (devicesEndpoint (client w)) = None ->
  next_outcome w = HttpResp 401 cs body j ->
  (exists r, fst (FetchDevices w) = Ok r) \/
  (exists p e, fst (FetchDevices w) = Err (Wrapped p e)).
Proof.
  intros Ha Hu Ho. rewrite (FetchDevices_401 w cs body j Ha Hu Ho). cbv zeta.
  destruct (Login _ _ _) as [[e'|] w2]; cbn [fst].
  - right. do 2 eexists. reflexivity.
  - destruct (makeDevicesRequest w2) as [[r|e2] w3]; cbn [fst].
    + left. eexists. reflexivity.
    + right. do 2 eexists. reflexivity.
Qed.

(** a 401 and a login endpoint that [http.NewRequest] rejects: the
    re-login fails before sending anything *)
Lemma FetchDevices_401_bad_login (w : World) (cs : list Cookie) (body : string) (j : Decoded)
    (m : string) :
  authenticated (client w) = true ->
  url_error w (devicesEndpoint (client w)) = None ->
  next_outcome w = HttpResp 401 cs body j ->
  url_error w (loginEndpoint (client w)) = Some m ->
  let ac := client w in
  FetchDevices w =
    (Err (Wrapped "failed to re-authenticate"
            (Wrapped "failed to create login request" (ErrorString m))),
     after_request w (DevicesPost (devicesEndpoint ac) (authCookie ac))
       (set_authenticated ac false)).
Proof.
  intros Ha Hu Ho Hl. cbv zeta. rewrite (FetchDevices_401 w cs body j Ha Hu Ho). cbv zeta.
  rewrite Login_bad_url with (m := m) by exact Hl. reflexivity.
Qed.

(** the re-authentication path starts with the device request and the login *)
Lemma FetchDevices_401_sent (w : World) (cs : list Cookie) (body : string) (j : Decoded) :
  authenticated (client w) = true ->
  url_error w (devicesEndpoint (client w)) = None ->
  url_error w (loginEndpoint (client w)) = None ->
  next_outcome w = HttpResp 401 cs body j ->
  let ac := client w in
  exists more,
    sent (snd (FetchDevices w)) =
      sent w ++ [DevicesPost (devicesEndpoint ac) (authCookie ac);
                 LoginPost (loginEndpoint ac) (Username (config ac)) (Password (config ac))]
      ++ more.
Proof.
  intros Ha Hu Hl Ho. cbv zeta. rewrite (FetchDevices_401 w cs body j Ha Hu Ho). cbv zeta.
  rewrite Login_eq by (reflexivity || exact Hl).
  cbn [client set_authenticated loginEndpoint after_request].
  destruct (login_accepts _) as [c|]; cbn [snd sent].
  - rewrite makeDevicesRequest_eq by exact Hu.
    destruct (devices_result _ _) as [r|e2]; cbn [snd sent after_request].
    + exists [DevicesPost (devicesEndpoint (client w)) (Some c)]. unfold after_request.
      cbn [client sent set_authenticated set_authCookie devicesEndpoint authCookie].
      now rewrite <- !app_assoc.
    + exists [DevicesPost (devicesEndpoint (client w)) (Some c)]. unfold after_request.
      cbn [client sent set_authenticated set_authCookie devicesEndpoint authCookie].
      now rewrite <- !app_assoc.
  - exists []. unfold after_request. cbn [client sent]. now rewrite <- !app_assoc.
Qed.

Lemma TestConnection_bad_url (Status : Z -> string) (w : World) (m : string) :
  url_error w (devicesEndpoint (client w)) = Some m ->
  TestConnection Status w =
    (Some (Wrapped "failed to create test request" (ErrorString m)), w).
Proof.
  intros Hu. unfold TestConnection at 1. unfold bind at 1.
  rewrite (makeTestRequest_bad_url Status w m Hu). reflexivity.
Qed.

Lemma TestConnection_not401 (Status : Z -> string) (w : World) :
  url_error w (devicesEndpoint (client w)) = None ->
  (forall cs body j, next_outcome w <> HttpResp 401 cs body j) ->
  TestConnection Status w =
    (test_result Status (devicesEndpoint (client w)) (next_outcome w),
     after_request w (DevicesPost (devicesEndpoint (client w)) (authCookie (client w))) (client w)).
Proof.
  intros Hu Hn. unfold TestConnection at 1. unfold bind at 1. rewrite (makeTestRequest_eq Status w Hu).
  unfold test_result. destruct (next_outcome w) as [m|code cs body j] eqn:O; [reflexivity|].
  destruct (code =? 401) eqn:C1; [apply Z.eqb_eq in C1; subst code; now destruct (Hn cs body j)|].
  destruct (negb (code =? 200)); cbv beta iota; [|reflexivity].
  rewrite C1. reflexivity.
Qed.

Lemma TestConnection_401 (Status : Z -> string) (w : World) (cs : list Cookie) (body : string)
    (j : Decoded) :
  url_error w (devicesEndpoint (client w)) = None ->
  next_outcome w = HttpResp 401 cs body j ->
  let ac := client w in
  let w1 := after_request w (DevicesPost (devicesEndpoint ac) (authCookie ac))
              (set_authenticated ac false) in
  TestConnection Status w =
    let (le, w2) := Login (Username (config ac)) (Password (config ac)) w1 in
    match le with
    | Some e' => (Some (Wrapped "failed to re-authenticate during test" e'), w2)
    | None =>
        let (err, w3) := makeTestRequest Status w2 in
        match err with
        | Some e2 => (Some (Wrapped "test failed after re-authentication" e2), w3)
        | None => (None, w3)
        end
    end.
Proof.
  intros Hu Ho. cbv zeta. unfold TestConnection at 1. unfold bind at 1.
  rewrite (makeTestRequest_eq Status w Hu), Ho. cbn [test_result Z.eqb Pos.eqb].
  unfold bind, get_client, set_client, ret. cbn [client server sent slept url_error].
  destruct (Login _ _ _) as [[e'|] w2]; [reflexivity|].
  destruct (makeTestRequest Status w2) as [[e2|] w3]; reflexivity.
Qed.

Lemma devices_ok_test (Status : Z -> string) (ep : string) (o : Outcome) (r : APIResponse) :
  devices_result ep o = Ok r -> test_result Status ep o = None.
Proof.
  destruct o as [m|code cs body j]; cbn; [discriminate|].
  destruct (code =? 401); [discriminate|]. destruct (code =? 200); [reflexivity|discriminate].
Qed.

(** the test request is the device request with the answer read differently *)
Lemma makeTestRequest_like (Status : Z -> string) (w : World) :
  snd (makeTestRequest Status w) = snd (makeDevicesRequest w) /\
  (forall r, fst (makeDevicesRequest w) = Ok r -> fst (makeTestRequest Status w) = None).
Proof.
  destruct (url_error w (devicesEndpoint (client w))) as [m|] eqn:U.
  - rewrite (makeDevicesRequest_bad_url w m U), (makeTestRequest_bad_url Status w m U).
    split; [reflexivity|discriminate].
  - rewrite (makeDevicesRequest_eq w U), (makeTestRequest_eq Status w U).
    split; [reflexivity|]. intros r Hr. exact (devices_ok_test Status _ _ r Hr).
Qed.

End ClientOpsFacts.

Module RetryFacts.
Import Client ClientSpec ClientOps ClientOpsSpec ClientFacts ClientOpsFacts.

#[local] Arguments failed_after : simpl never.

Lemma retry_unauth_gen k : forall a m w,
  authenticated (client w) = false -> 1 <= a -> a + Z.of_nat k = m + 1 ->
  m * Second <= MaxInt64 ->
  retry_loop FetchDevices Sleep k a m (Some not_authenticated) w =
    (Err (failed_after m (Some not_authenticated)),
     mkWorld (client w) (server w) (sent w) (slept w ++ waits_from (Z.to_nat a) k) (url_error w)).
Proof.
  induction k as [|k IH]; intros a m w Ha H1 Hk Hw.
  - cbn [retry_loop ret]. destruct w. cbn. now rewrite app_nil_r.
  - destruct (wait_no_wrap a m ltac:(lia) Hw) as [Hw1 Hw2].
    cbn [retry_loop]. rewrite Hw1, Hw2.
    replace (a <=? m) with true by (symmetry; apply Z.leb_le; lia).
    replace (0 <? a) with true by (symmetry; apply Z.ltb_lt; lia).
    cbn [negb]. unfold bind at 1. unfold Sleep at 1. unfold bind at 1.
    rewrite FetchDevices_unauth by exact Ha. change (is_client_error not_authenticated) with false. cbv beta iota.
    rewrite IH by (cbn; lia || exact Ha || exact Hw). cbn [client server sent slept url_error].
    rewrite <- app_assoc. unfold waits_from.
    replace (Z.to_nat (a + 1)) with (S (Z.to_nat a)) by lia.
    cbn [seq map]. rewrite Z2Nat.id by lia. reflexivity.
Qed.

Lemma retry_unauth (w : World) (maxRetries : Z) :
  0 <= maxRetries -> maxRetries * Second <= MaxInt64 -> authenticated (client w) = false ->
  FetchDevicesWithRetry maxRetries w =
    (Err (failed_after maxRetries (Some not_authenticated)),
     mkWorld (client w) (server w) (sent w) (slept w ++ waits_from 1 (Z.to_nat maxRetries))
       (url_error w)).
Proof.
  intros Hm Hw Ha. unfold FetchDevicesWithRetry, retry_with.
  replace (Z.to_nat (maxRetries + 1)) with (S (Z.to_nat maxRetries)) by lia.
  cbn [retry_loop].
  replace (0 <=? maxRetries) with true by (symmetry; apply Z.leb_le; lia).
  change (0 <? 0) with false. cbn [negb]. unfold bind at 1. unfold ret at 1. unfold bind at 1.
  rewrite FetchDevices_unauth by exact Ha. change (is_client_error not_authenticated) with false. cbv beta iota.
  change (wrap64 (0 + 1)) with 1.
  rewrite retry_unauth_gen by (exact Ha || exact Hw || lia). reflexivity.
Qed.




End RetryFacts.

Module ClientExtras.
Import Client ClientSpec ClientOps ClientOpsSpec ClientFacts ClientOpsFacts RetryFacts.

#[local] Arguments failed_after : simpl never.

(** X1: Logout clears the authenticated flag and the cookie and changes nothing else; IsAuthenticated then reports false, and FetchDevices on the logged-out client fails with "not authenticated - please login first" without sending a request. *)
Theorem Logout_then_FetchDevices (w : World) :
  let w1 := snd (Logout w) in
  w1 = mkWorld (set_authCookie (set_authenticated (client w) false) None)
         (server w) (sent w) (slept w) (url_error w) /\
  fst (IsAuthenticated w1) = false /\
  FetchDevices w1 = (Err not_authenticated, w1).
Proof.
  cbv zeta. split; [reflexivity|]. split; [reflexivity|].
  apply FetchDevices_unauth. reflexivity.
Qed.

(** X2: on a client that is not authenticated, FetchDevicesWithRetry(maxRetries) with maxRetries >= 0 and a wait of maxRetries seconds that fits in a time.Duration (maxRetries <= 9223372036) sends no request, sleeps 1s, 2s, ..., maxRetries s between its attempts and fails with "failed after <maxRetries+1> attempts: not authenticated - please login first". *)
Theorem FetchDevicesWithRetry_unauthenticated (w : World) (maxRetries : Z)
    (Hm : 0 <= maxRetries) (Hw : maxRetries * Second <= MaxInt64)
    (Hauth : authenticated (client w) = false) :
  FetchDevicesWithRetry maxRetries w =
    (Err (failed_after maxRetries (Some not_authenticated)),
     mkWorld (client w) (server w) (sent w) (slept w ++ waits_from 1 (Z.to_nat maxRetries))
       (url_error w)) /\
  Error (failed_after maxRetries (Some not_authenticated)) =
    ("failed after " ++ Z_to_string (maxRetries + 1)
     ++ " attempts: not authenticated - please login first")%string.
Proof.
  split; [exact (retry_unauth w maxRetries Hm Hw Hauth)|].
  unfold failed_after. rewrite wrap64_id by (unfold Second, MaxInt64 in *; lia).
  cbn [Error not_authenticated]. now rewrite !str_app_assoc.
Qed.

Lemma FetchDevicesWithRetry_unauthenticated_witness :
  0 <= 2 /\ 2 * Second <= MaxInt64 /\
  authenticated (client ClientOpsSamples.w_logged_out) = false /\
  FetchDevicesWithRetry 2 ClientOpsSamples.w_logged_out =
    (Err (failed_after 2 (Some not_authenticated)),
     mkWorld (client ClientOpsSamples.w_logged_out) [ClientSamples.devices_ok] []
       [Second; 2 * Second] ClientSamples.urls_ok).
Proof.
  split; [lia|]. split; [vm_compute; discriminate|]. split; [reflexivity|].
  exact (proj1 (FetchDevicesWithRetry_unauthenticated ClientOpsSamples.w_logged_out 2
                  ltac:(lia) ltac:(vm_compute; discriminate) eq_refl)).
Defined.


(** X3: on an authenticated client, when the server does not answer 401, FetchDevices sends exactly one devices request (with the stored cookie) and its result is that of makeDevicesRequest on the reply; the client is unchanged.  When http.NewRequest rejects the devices endpoint, nothing is sent and the call fails with "failed to create request: ...". *)
Theorem FetchDevices_single_request (w : World)
    (Hauth : authenticated (client w) = true)
    (Hn : forall cs body j, next_outcome w <> HttpResp 401 cs body j) :
  let ac := client w in
  FetchDevices w =
    match url_error w (devicesEndpoint ac) with
    | Some m => (Err (Wrapped "failed to create request" (ErrorString m)), w)
    | None =>
        (devices_result (devicesEndpoint ac) (next_outcome w),
         after_request w (DevicesPost (devicesEndpoint ac) (authCookie ac)) ac)
    end.
Proof.
  cbv zeta. destruct (url_error w (devicesEndpoint (client w))) as [m|] eqn:U.
  - exact (FetchDevices_bad_url w m Hauth U).
  - exact (FetchDevices_not401 w Hauth U Hn).
Qed.

Lemma FetchDevices_single_request_witness :
  authenticated (client ClientSamples.w_not_found) = true /\
  (forall cs body j, next_outcome ClientSamples.w_not_found <> HttpResp 401 cs body j) /\
  FetchDevices ClientSamples.w_not_found =
    (Err (APIError 404 "not found" (devicesEndpoint ClientSamples.ac_logged_in)),
     mkWorld ClientSamples.ac_logged_in [ClientSamples.devices_ok]
       [DevicesPost (devicesEndpoint ClientSamples.ac_logged_in)
          (Some ClientSamples.old_cookie)] [] ClientSamples.urls_ok).
Proof.
  assert (Hn : forall cs body j,
             next_outcome ClientSamples.w_not_found <> HttpResp 401 cs body j)
    by (intros cs body j H; injection H; discriminate).
  split; [reflexivity|]. split; [exact Hn|].
  exact (FetchDevices_single_request ClientSamples.w_not_found eq_refl Hn).
Defined.

(** X4: when FetchDevices on an authenticated client fails with a 4xx client error, that error is the APIError of a non-401 4xx reply to the single devices request it sent. *)
Theorem FetchDevices_client_error_origin (w : World) (e : GoError)
    (Hauth : authenticated (client w) = true)
    (Hres : fst (FetchDevices w) = Err e) (Hce : is_client_error e = true) :
  exists code cs body j,
    next_outcome w = HttpResp code cs body j /\ code <> 401 /\ 400 <= code < 500 /\
    e = APIError code body (devicesEndpoint (client w)) /\
    snd (FetchDevices w) =
      after_request w (DevicesPost (devicesEndpoint (client w)) (authCookie (client w)))
        (client w).
Proof.
  destruct (url_error w (devicesEndpoint (client w))) as [mu|] eqn:U.
  { rewrite (FetchDevices_bad_url w mu Hauth U) in Hres. cbn in Hres.
    injection Hres as <-. discriminate. }
  destruct (next_outcome w) as [m|code cs body j] eqn:O.
  - assert (Hn : forall cs body j, next_outcome w <> HttpResp 401 cs body j)
      by (intros cs body j; rewrite O; discriminate).
    rewrite (FetchDevices_not401 w Hauth U Hn), O in Hres. cbn in Hres.
    injection Hres as <-. discriminate.
  - destruct (Z.eq_dec code 401) as [->|Hc].
    + destruct (FetchDevices_401_wrapped w cs body j Hauth U O) as [[r Hr]|[p [e' He']]];
        rewrite Hres in *; [discriminate|]. injection He' as ->. discriminate.
    + assert (Hn : forall cs body j, next_outcome w <> HttpResp 401 cs body j)
        by (intros cs' body' j'; rewrite O; intros H; injection H; intros; contradiction).
      rewrite (FetchDevices_not401 w Hauth U Hn) in Hres |- *. rewrite O in Hres.
      cbn [fst] in Hres. unfold devices_result in Hres.
      apply Z.eqb_neq in Hc as Hc'. rewrite Hc' in Hres.
      destruct (code =? 200) eqn:C2; cbn [negb] in Hres.
      * destruct j; [discriminate|injection Hres as <-; discriminate|
                     injection Hres as <-; discriminate].
      * injection Hres as <-. cbn in Hce. apply andb_true_iff in Hce as [H1 H2].
        apply Z.leb_le in H1. apply Z.ltb_lt in H2.
        exists code, cs, body, j. repeat split; try reflexivity; lia.
Qed.

Lemma FetchDevices_client_error_origin_witness :
  exists code cs body j,
    next_outcome ClientSamples.w_not_found = HttpResp code cs body j /\ code <> 401 /\
    400 <= code < 500 /\
    APIError 404 "not found" (devicesEndpoint ClientSamples.ac_logged_in) =
      APIError code body (devicesEndpoint (client ClientSamples.w_not_found)) /\
    snd (FetchDevices ClientSamples.w_not_found) =
      after_request ClientSamples.w_not_found
        (DevicesPost (devicesEndpoint (client ClientSamples.w_not_found))
           (authCookie (client ClientSamples.w_not_found)))
        (client ClientSamples.w_not_found).
Proof.
  exact (FetchDevices_client_error_origin ClientSamples.w_not_found
           (APIError 404 "not found" (devicesEndpoint ClientSamples.ac_logged_in))
           eq_refl eq_refl eq_refl).
Defined.

(** X5: UpdateConfig replaces the configuration but keeps the endpoints computed at construction; when the next devices request is then sent and gets a 401, the re-login posts the NEW credentials to the OLD login endpoint, or, when http.NewRequest rejects that endpoint, fails without sending anything more. *)
Theorem UpdateConfig_relogin (w : World) (c : Config) (cs : list Cookie) (body : string)
    (j : Decoded) (Hauth : authenticated (client w) = true)
    (Hurl : url_error w (devicesEndpoint (client w)) = None)
    (Hsrv : next_outcome w = HttpResp 401 cs body j) :
  let ac := client w in
  let w1 := snd (UpdateConfig c w) in
  config (client w1) = c /\ sent w1 = sent w /\
  fst (GetEndpoint w1) = devicesEndpoint ac /\
  match url_error w (loginEndpoint ac) with
  | None =>
      exists more,
        sent (snd (FetchDevices w1)) =
          sent w ++ [DevicesPost (devicesEndpoint ac) (authCookie ac);
                     LoginPost (loginEndpoint ac) (Username c) (Password c)] ++ more
  | Some _ =>
      sent (snd (FetchDevices w1)) = sent w ++ [DevicesPost (devicesEndpoint ac) (authCookie ac)]
  end.
Proof.
  cbv zeta. split; [reflexivity|]. split; [reflexivity|]. split; [reflexivity|].
  destruct (url_error w (loginEndpoint (client w))) as [m|] eqn:L.
  - rewrite (FetchDevices_401_bad_login (snd (UpdateConfig c w)) cs body j m Hauth Hurl Hsrv L).
    reflexivity.
  - exact (FetchDevices_401_sent (snd (UpdateConfig c w)) cs body j Hauth Hurl L Hsrv).
Qed.

Lemma UpdateConfig_relogin_witness :
  let ac := ClientSamples.ac_logged_in in
  let w1 := snd (UpdateConfig ClientOpsSamples.cfg2 ClientSamples.w_reauth) in
  authenticated (client ClientSamples.w_reauth) = true /\
  (exists more,
    sent (snd (FetchDevices w1)) =
      [DevicesPost (devicesEndpoint ac) (authCookie ac);
       LoginPost "https://ptaf.example/api/Login" "operator" "pw2"] ++ more).
Proof.
  cbv zeta. split; [reflexivity|].
  exact (proj2 (proj2 (proj2 (UpdateConfig_relogin ClientSamples.w_reauth ClientOpsSamples.cfg2
           [] "" ClientSamples.bad_json eq_refl eq_refl eq_refl)))).
Defined.


(** X6: on an authenticated client TestConnection sends the same requests and leaves the same state as FetchDevices, and succeeds whenever FetchDevices would succeed. *)
Theorem TestConnection_like_FetchDevices (Status : Z -> string) (w : World)
    (Hauth : authenticated (client w) = true) :
  snd (TestConnection Status w) = snd (FetchDevices w) /\
  (forall r, fst (FetchDevices w) = Ok r -> fst (TestConnection Status w) = None).
Proof.
  destruct (url_error w (devicesEndpoint (client w))) as [mu|] eqn:U.
  { rewrite (FetchDevices_bad_url w mu Hauth U), (TestConnection_bad_url Status w mu U).
    split; [reflexivity|discriminate]. }
  destruct (next_outcome w) as [m|code cs body j] eqn:O.
  - assert (Hn : forall cs body j, next_outcome w <> HttpResp 401 cs body j)
      by (intros cs body j; rewrite O; discriminate).
    rewrite (FetchDevices_not401 w Hauth U Hn), (TestConnection_not401 Status w U Hn).
    split; [reflexivity|]. intros r Hr. exact (devices_ok_test Status _ _ r Hr).
  - destruct (Z.eq_dec code 401) as [->|Hc].
    + rewrite (FetchDevices_401 w cs body j Hauth U O), (TestConnection_401 Status w cs body j U O).
      cbv zeta. destruct (Login _ _ _) as [[e'|] w2]; [split; [reflexivity|discriminate]|].
      destruct (makeTestRequest_like Status w2) as [L1 L2].
      destruct (makeDevicesRequest w2) as [[r|e2] w3];
        destruct (makeTestRequest Status w2) as [[e3|] w4]; cbn [fst snd] in L1, L2 |- *.
      * discriminate (L2 r eq_refl).
      * split; [congruence|reflexivity].
      * split; [congruence|discriminate].
      * split; [congruence|discriminate].
    + assert (Hn : forall cs body j, next_outcome w <> HttpResp 401 cs body j)
        by (intros cs' body' j'; rewrite O; intros H; injection H; intros; contradiction).
      rewrite (FetchDevices_not401 w Hauth U Hn), (TestConnection_not401 Status w U Hn).
      split; [reflexivity|]. intros r Hr. exact (devices_ok_test Status _ _ r Hr).
Qed.

Lemma TestConnection_like_FetchDevices_witness :
  authenticated (client ClientOpsSamples.w_bad_body) = true /\
  snd (TestConnection ClientOpsSamples.status_line ClientOpsSamples.w_bad_body) =
    snd (FetchDevices ClientOpsSamples.w_bad_body) /\
  fst (TestConnection ClientOpsSamples.status_line ClientOpsSamples.w_bad_body) = None /\
  fst (FetchDevices ClientOpsSamples.w_bad_body) =
    Err (Wrapped "failed to parse JSON response" (ErrorString "unexpected end of JSON input")).
Proof.
  split; [reflexivity|].
  split; [exact (proj1 (TestConnection_like_FetchDevices ClientOpsSamples.status_line
                          ClientOpsSamples.w_bad_body eq_refl))|].
  split; reflexivity.
Defined.


(** X7: TestInitialConnection logs in with the scheduler's credentials; a login failure is returned wrapped in "login failed" (when http.NewRequest rejects the login endpoint, before anything is sent); otherwise it sends one test request with the new cookie (unless http.NewRequest rejects the devices endpoint), and a non-401 test failure is returned wrapped in "initial connection test failed". *)
Theorem TestInitialConnection_steps (Status : Z -> string) (w : World) (sc : Config)
    (Hfresh : authenticated (client w) = false) :
  let ac := client w in
  let lreq := LoginPost (loginEndpoint ac) (Username sc) (Password sc) in
  let res := Scheduler.TestInitialConnection Status sc w in
  match url_error w (loginEndpoint ac) with
  | Some m =>
      res = (Some (Wrapped "login failed" (Wrapped "failed to create login request" (ErrorString m))),
             w)
  | None =>
  match login_accepts (next_outcome w) with
  | None =>
      res = (Some (Wrapped "login failed" (login_error (loginEndpoint ac) (next_outcome w))),
             after_request w lreq ac)
  | Some c =>
      let ac1 := set_authenticated (set_authCookie ac (Some c)) true in
      let w1 := after_request w lreq ac1 in
      let treq := DevicesPost (devicesEndpoint ac) (Some c) in
      match url_error w (devicesEndpoint ac) with
      | Some m =>
          res = (Some (Wrapped "initial connection test failed"
                         (Wrapped "failed to create test request" (ErrorString m))), w1)
      | None =>
      match test_result Status (devicesEndpoint ac) (next_outcome w1) with
      | None => res = (None, after_request w1 treq ac1)
      | Some e =>
          is_unauthorized e = false ->
          res = (Some (Wrapped "initial connection test failed" e), after_request w1 treq ac1)
      end
      end
  end
  end.
Proof.
  cbv zeta. unfold Scheduler.TestInitialConnection, bind.
  destruct (url_error w (loginEndpoint (client w))) as [m|] eqn:L.
  { rewrite (Login_bad_url _ _ w m L). reflexivity. }
  rewrite (Login_eq _ _ w Hfresh L). cbv zeta.
  destruct (login_accepts (next_outcome w)) as [c|]; [|reflexivity].
  destruct (url_error w (devicesEndpoint (client w))) as [m|] eqn:D.
  { rewrite TestConnection_bad_url with (m := m) by exact D. reflexivity. }
  unfold TestConnection, bind. rewrite makeTestRequest_eq by exact D.
  cbn [client after_request set_authenticated set_authCookie devicesEndpoint authCookie].
  destruct (test_result _ _ _) as [e|] eqn:T; [|reflexivity].
  intros Hu. destruct e as [code msg ep| | |]; try reflexivity.
  cbn [is_unauthorized] in Hu. cbv beta iota. rewrite Hu. reflexivity.
Qed.

Lemma TestInitialConnection_steps_witness :
  let ac := client ClientOpsSamples.w_start in
  authenticated ac = false /\
  Scheduler.TestInitialConnection ClientOpsSamples.status_line ClientSamples.cfg
    ClientOpsSamples.w_start =
    (None, mkWorld (set_authenticated (set_authCookie ac (Some ClientSamples.new_cookie)) true) []
             [LoginPost (loginEndpoint ac) "admin" "secret";
              DevicesPost (devicesEndpoint ac) (Some ClientSamples.new_cookie)] []
             ClientSamples.urls_ok).
Proof.
  cbv zeta. split; [reflexivity|].
  exact (TestInitialConnection_steps ClientOpsSamples.status_line ClientOpsSamples.w_start
           ClientSamples.cfg eq_refl).
Defined.

End ClientExtras.

Module SchedulerExtras.
Import Grouping Client ClientSpec ClientOps Display DisplayFacts ClientFacts RetryFacts.

(** X8: RunOnce fetches with two retries; on failure it returns the error "failed after 3 attempts: ...", records it, shows it and keeps showing the last data; on success it returns nil, stores the grouped response as the last data and clears the error. *)
Theorem RunOnce_outcome (mapOrder : GroupMap -> GroupMap) (now : Time) (w : World)
    (dm : DisplayManager) :
  let '(err, ops, w', dm') := Scheduler.RunOnce mapOrder now w dm in
  w' = snd (FetchDevicesWithRetry 2 w) /\
  match fst (FetchDevicesWithRetry 2 w) with
  | Err e =>
      err = Some e /\ (exists inner, e = Wrapped "failed after 3 attempts" inner) /\
      lastData dm' = lastData dm /\ errorMessage dm' = Error e /\
      In (RError (Error e)) ops /\ shown_data ops = lastData dm
  | Ok response =>
      err = None /\ lastData dm' = Some (GroupDevicesByLogicalDevice mapOrder now response) /\
      errorMessage dm' = ""%string /\ shown_data ops = lastData dm'
  end.
Proof.
  pose proof (FetchDevicesWithRetry_2_shape w) as Sh.
  unfold Scheduler.RunOnce.
  destruct (FetchDevicesWithRetry 2 w) as [[resp|e] w'] eqn:F; cbn [fst snd] in Sh |- *.
  - repeat split; reflexivity.
  - destruct Sh as [[r Hr]|[inner Hi]]; [discriminate|]. injection Hi as ->.
    assert (Hne : Error (Wrapped "failed after 3 attempts" inner) <> ""%string)
      by (cbn; discriminate).
    destruct (Render_fail_shows dm None _ Hne) as (H1 & H2 & H3).
    pose proof (f_equal fst (Render_fail dm None _ Hne)) as H4. cbn [fst] in H4.
    destruct (Render dm None (Some (Wrapped "failed after 3 attempts" inner))) as [dm' ops].
    cbn [fst snd] in H1, H2, H3, H4.
    split; [reflexivity|]. split; [reflexivity|]. split; [eexists; reflexivity|].
    split; [exact H1|]. split; [rewrite H4; reflexivity|]. split; [exact H3|exact H2].
Qed.

End SchedulerExtras.


Module TableFacts.
Import Layout LayoutSpec LayoutFacts Client Settings Table TableSpec.

#[local] Arguments ansi_match : simpl never.

Lemma b_app (s t : string) : b (s ++ t) = b s ++ b t.
Proof. induction s as [|c s IH]; simpl; [reflexivity|]. unfold b in *. now rewrite IH. Qed.

Lemma b_length (s : string) : List.length (b s) = String.length s.
Proof. induction s as [|c s IH]; simpl; [reflexivity|]. unfold b in *. now rewrite IH. Qed.

Lemma stripColors_app_noesc x y : no_esc x = true -> stripColors (x ++ y) = x ++ stripColors y.
Proof.
  induction x as [|c t IH]; intros H; [reflexivity|].
  unfold no_esc in H. cbn [forallb] in H. apply andb_prop in H as [Hc Ht].
  unfold stripColors in *. simpl (_ ++ _). rewrite ansi_lex_unfold.
  replace (ansi_match (c :: t ++ y)) with (@None nat).
  - cbn [texts]. f_equal. now apply IH.
  - unfold ansi_match. destruct (t ++ y); [reflexivity|].
    apply negb_true_iff in Hc. now rewrite Hc.
Qed.

Lemma stripColors_code_app c y : is_code c -> stripColors (c ++ y) = stripColors y.
Proof.
  intros H. unfold stripColors. destruct c as [|x t]; [discriminate H|].
  simpl (_ ++ _). rewrite ansi_lex_unfold. change (x :: t ++ y) with ((x :: t) ++ y).
  rewrite (ansi_match_app _ y _ H). cbn [texts].
  rewrite skipn_app, skipn_all, Nat.sub_diag. reflexivity.
Qed.

Lemma stripColors_opt_code c y : opt_code c -> stripColors (c ++ y) = stripColors y.
Proof. intros [->|H]; [reflexivity|now apply stripColors_code_app]. Qed.

Lemma boundary_opt_code_sp c y : opt_code c -> boundary (c ++ " "%char :: y) = true.
Proof.
  intros [->|H]; [reflexivity|].
  pose proof (code_boundary c H) as Hb. destruct c; [discriminate H|exact Hb].
Qed.

Lemma getColor_opt_code scr c : is_code c -> opt_code (getColor scr c).
Proof. unfold getColor, opt_code. destruct (ColorOutput scr); auto. Qed.

Lemma codes_ok : is_code ColorReset /\ is_code ColorRed /\ is_code ColorGreen /\
  is_code ColorYellow /\ is_code ColorBlue /\ is_code ColorBold.
Proof. repeat split; reflexivity. Qed.

Lemma getConnectionStateColor_opt_code scr st : opt_code (getConnectionStateColor scr st).
Proof.
  unfold getConnectionStateColor, opt_code. pose proof codes_ok as (_&H1&H2&H3&_).
  destruct (negb (ColorOutput scr)); auto.
  destruct (String.eqb st _); auto. destruct (String.eqb st _); auto.
Qed.

(** UTF-8 decoding never looks past an ASCII byte *)
Lemma rune_size_app c t y : ascii_head y = true -> rune_size c (t ++ y) = rune_size c t.
Proof.
  intros Hy. unfold rune_size; cbv zeta.
  destruct (nat_of_ascii c <? 128)%nat; [reflexivity|].
  set (info := if (nat_of_ascii c <? 194)%nat then None else _).
  assert (Hi : info = None \/ exists size lo hi, info = Some (size, lo, hi) /\
                 (size = 2 \/ size = 3 \/ size = 4)%nat /\ (128 <= lo)%nat).
  { subst info. repeat match goal with |- context[if ?x then _ else _] => destruct x end;
      try (left; reflexivity); right; do 3 eexists; (split; [reflexivity|lia]). }
  clearbody info. destruct Hi as [->|(size & lo & hi & -> & Hs & Hlo)]; [reflexivity|].
  destruct y as [|d y]; [now rewrite app_nil_r|].
  cbn [ascii_head] in Hy. apply Nat.ltb_lt in Hy.
  assert (Hd1 : in_range lo hi d = false).
  { unfold in_range. apply andb_false_iff. left. apply Nat.leb_gt. lia. }
  assert (Hd2 : in_range 128 191 d = false).
  { unfold in_range. apply andb_false_iff. left. apply Nat.leb_gt. lia. }
  destruct Hs as [ -> | [ -> | -> ] ]; destruct t as [|c1 [|c2 [|c3 t]]];
    destruct y as [|e [|f y]]; cbn -[in_range]; rewrite ?Hd1, ?Hd2; cbn;
    repeat (match goal with |- context[in_range ?l ?h ?x] => destruct (in_range l h x) end; cbn);
    reflexivity.
Qed.

Lemma rune_size_bound c t : (rune_size c t <= S (List.length t))%nat.
Proof.
  unfold rune_size; cbv zeta.
  destruct (nat_of_ascii c <? 128)%nat; [cbn; lia|].
  set (info := if (nat_of_ascii c <? 194)%nat then None else _).
  assert (Hi : info = None \/ exists size lo hi, info = Some (size, lo, hi) /\
                 (size = 2 \/ size = 3 \/ size = 4)%nat).
  { subst info. repeat match goal with |- context[if ?x then _ else _] => destruct x end;
      try (left; reflexivity); right; do 3 eexists; (split; [reflexivity|lia]). }
  clearbody info. destruct Hi as [->|(size & lo & hi & -> & Hs)]; [cbn; lia|].
  destruct Hs as [ -> | [ -> | -> ] ]; destruct t as [|c1 [|c2 [|c3 t]]]; cbn -[in_range];
    repeat (match goal with |- context[in_range ?l ?h ?x] => destruct (in_range l h x) end; cbn);
    lia.
Qed.

Lemma rune_size_ascii c t : (nat_of_ascii c < 128)%nat -> rune_size c t = 1%nat.
Proof. intros H. unfold rune_size. apply Nat.ltb_lt in H. now rewrite H. Qed.

Lemma RuneCount_ascii_cons c t :
  (nat_of_ascii c < 128)%nat -> RuneCountInString (c :: t) = S (RuneCountInString t).
Proof. intros H. cbn [RuneCountInString]. now rewrite rune_size_ascii. Qed.

(** the rune count is additive at a position where an ASCII byte follows *)
Lemma RuneCount_app x : forall y, ascii_head y = true ->
  RuneCountInString (x ++ y) = (RuneCountInString x + RuneCountInString y)%nat.
Proof.
  induction x as [x IH] using (induction_ltof1 _ (@List.length ascii)); unfold ltof in IH.
  intros y Hy. destruct x as [|c t]; [reflexivity|].
  simpl (_ ++ _). cbn [RuneCountInString]. rewrite (rune_size_app c t y Hy).
  pose proof (rune_size_bound c t) as Hb.
  destruct (rune_size c t) as [|[|[|[|[|k]]]]].
  - rewrite (IH t ltac:(simpl; lia) y Hy). reflexivity.
  - rewrite (IH t ltac:(simpl; lia) y Hy). reflexivity.
  - destruct t as [|c1 t]; [simpl in Hb; lia|]. simpl (_ ++ _). cbv beta iota.
    rewrite (IH t ltac:(simpl; lia) y Hy). reflexivity.
  - destruct t as [|c1 [|c2 t]]; [simpl in Hb; lia..|]. simpl (_ ++ _). cbv beta iota.
    rewrite (IH t ltac:(simpl; lia) y Hy). reflexivity.
  - destruct t as [|c1 [|c2 [|c3 t]]]; [simpl in Hb; lia..|]. simpl (_ ++ _). cbv beta iota.
    rewrite (IH t ltac:(simpl; lia) y Hy). reflexivity.
  - rewrite (IH t ltac:(simpl; lia) y Hy). reflexivity.
Qed.

Lemma RuneCount_ascii_app x y :
  is_ascii x = true -> RuneCountInString (x ++ y) = (List.length x + RuneCountInString y)%nat.
Proof.
  induction x as [|c t IH]; intros H; [reflexivity|].
  unfold is_ascii in H. cbn [forallb] in H. apply andb_prop in H as [Hc Ht].
  apply Nat.ltb_lt in Hc. simpl (_ ++ _). rewrite RuneCount_ascii_cons by exact Hc.
  rewrite IH by exact Ht. reflexivity.
Qed.

Lemma spaces_props n :
  no_esc (spaces n) = true /\ is_ascii (spaces n) = true /\
  List.length (spaces n) = Z.to_nat n.
Proof.
  unfold spaces. induction (Z.to_nat n) as [|k [H1 [H2 H3]]]; [auto|].
  cbn [repeat no_esc is_ascii forallb List.length] in *. unfold no_esc, is_ascii in *.
  cbn [forallb]. rewrite H1, H2, H3. auto.
Qed.

Lemma stripColors_noesc x : no_esc x = true -> stripColors x = x.
Proof. intros H. rewrite <- (app_nil_r x), stripColors_app_noesc by exact H. reflexivity. Qed.

Lemma displayWidth_plain x : no_esc x = true -> is_ascii x = true ->
  displayWidth x = Z.of_nat (List.length x).
Proof.
  intros H1 H2. unfold displayWidth. rewrite stripColors_noesc by exact H1.
  rewrite <- (app_nil_r x), RuneCount_ascii_app by exact H2. rewrite app_nil_r. cbn. lia.
Qed.

(** the display width of [x ++ " " ++ y] *)
Lemma displayWidth_app_sp x y :
  displayWidth (x ++ " "%char :: y) = displayWidth x + 1 + displayWidth y.
Proof.
  unfold displayWidth. rewrite stripColors_app_boundary by reflexivity.
  change (" "%char :: y) with ([" "%char] ++ y). rewrite stripColors_app_noesc by reflexivity.
  rewrite RuneCount_app by reflexivity. cbn [app].
  rewrite RuneCount_ascii_cons by (cbn; lia). lia.
Qed.

Lemma displayWidth_cons_sp y : displayWidth (" "%char :: y) = 1 + displayWidth y.
Proof. apply (displayWidth_app_sp []). Qed.

Lemma displayWidth_opt_code c y : opt_code c -> displayWidth (c ++ y) = displayWidth y.
Proof. intros H. unfold displayWidth. now rewrite stripColors_opt_code. Qed.

Lemma displayWidth_app_opt_code_sp x c y : opt_code c ->
  displayWidth (x ++ c ++ " "%char :: y) = displayWidth x + 1 + displayWidth y.
Proof.
  intros H. unfold displayWidth.
  rewrite stripColors_app_boundary by (now apply boundary_opt_code_sp).
  rewrite stripColors_opt_code by exact H. fold (displayWidth (" "%char :: y)).
  change (" "%char :: y) with ([" "%char] ++ y). rewrite stripColors_app_noesc by reflexivity.
  rewrite RuneCount_app by reflexivity. cbn [app].
  rewrite RuneCount_ascii_cons by (cbn; lia). lia.
Qed.

Lemma displayWidth_app_spaces x n :
  displayWidth (x ++ spaces n) = displayWidth x + Z.max 0 n.
Proof.
  destruct (spaces_props n) as (H1 & H2 & H3). unfold displayWidth.
  assert (Hb : boundary (spaces n) = true /\ ascii_head (spaces n) = true).
  { unfold spaces. destruct (Z.to_nat n); split; reflexivity. }
  rewrite stripColors_app_boundary by apply Hb.
  rewrite (stripColors_noesc (spaces n) H1). rewrite RuneCount_app by apply Hb.
  rewrite <- (app_nil_r (spaces n)), RuneCount_ascii_app by exact H2.
  rewrite ?app_nil_r, H3. cbn [RuneCountInString]. lia.
Qed.

Lemma displayWidth_spaces_app n y :
  displayWidth (spaces n ++ y) = Z.max 0 n + displayWidth y.
Proof.
  destruct (spaces_props n) as (H1 & H2 & H3). unfold displayWidth.
  rewrite stripColors_app_noesc by exact H1. rewrite RuneCount_ascii_app by exact H2.
  rewrite H3. lia.
Qed.

Lemma displayWidth_vbar : displayWidth vbar = 1.
Proof. reflexivity. Qed.

(** the width of a boxed line [│ s<padding> │] *)
Lemma displayWidth_boxed s p : displayWidth (boxed s p) = displayWidth s + Z.max 0 p + 4.
Proof.
  unfold boxed. cbn [app]. rewrite displayWidth_app_sp, displayWidth_vbar.
  rewrite app_assoc, displayWidth_app_sp, displayWidth_app_spaces, displayWidth_vbar. lia.
Qed.


Lemma padString_width_gen s w leftAlign :
  displayWidth (padString s w leftAlign) = Z.max (displayWidth s) w.
Proof.
  unfold padString; cbv zeta.
  destruct (w <=? displayWidth s) eqn:E; [apply Z.leb_le in E; lia|]. apply Z.leb_gt in E.
  destruct leftAlign.
  - rewrite displayWidth_app_spaces. lia.
  - rewrite displayWidth_spaces_app. lia.
Qed.

(** a table cell: truncated, then padded to exactly its column width *)
Lemma cell_width s w : 0 <= w ->
  exists c, option_map (fun t => padString t w true) (truncateString s w) = Some c /\
            displayWidth c = w.
Proof.
  intros Hw. destruct (truncateString_some s w Hw) as [r Er].
  pose proof (truncateString_width s w r Er) as Dr.
  rewrite Er. eexists. split; [reflexivity|]. rewrite padString_width_gen. lia.
Qed.

Lemma calculateColumnWidths_shape int_mul W :
  exists w1 w2 w3 w4 w5 w6,
    calculateColumnWidths int_mul W = [3; w1; w2; w3; w4; w5; w6] /\
    0 <= w1 /\ 0 <= w2 /\ 0 <= w3 /\ 0 <= w4 /\ 0 <= w5 /\ 0 <= w6.
Proof.
  unfold calculateColumnWidths; cbv zeta. cbn [map nth baseWidths].
  do 6 eexists. split; [reflexivity|].
  repeat split; match goal with |- 0 <= (if ?c then _ else _) => destruct c eqn:?; lia end.
Qed.

Lemma treeCol_width (isLast : bool) :
  displayWidth (padString (if isLast then corner ++ hbar else tee ++ hbar) 3 true) = 3.
Proof. destruct isLast; reflexivity. Qed.

Ltac cells :=
  repeat match goal with
  | |- context[option_map (fun t : bytes => padString t ?w true) (truncateString ?s ?w)] =>
      let c := fresh "col" in let E := fresh "E" in let D := fresh "D" in
      destruct (cell_width s w) as (c & E & D); [lia|]; rewrite E
  end.

(** the line [renderPhysicalDevice] prints, whatever the column arithmetic
    yields: it never panics, and its width is the terminal width or the
    width of the row plus the box, whichever is larger *)
Lemma renderPhysicalDevice_width_gen int_mul scr device isLast :
  exists line, renderPhysicalDevice int_mul scr device isLast = Some line /\
  displayWidth line =
    Z.max (termWidth scr) (21 + sumZ (calculateColumnWidths int_mul (termWidth scr))).
Proof.
  destruct (calculateColumnWidths_shape int_mul (termWidth scr))
    as (w1 & w2 & w3 & w4 & w5 & w6 & Hcw & H1 & H2 & H3 & H4 & H5 & H6).
  unfold renderPhysicalDevice; cbv zeta. rewrite Hcw. cbn [nth].
  cells. eexists. split; [reflexivity|].
  rewrite displayWidth_boxed. cbn [app].
  rewrite <- !app_assoc. cbn [app].
  rewrite displayWidth_cons_sp, displayWidth_app_sp, treeCol_width.
  rewrite !displayWidth_app_sp, displayWidth_vbar.
  rewrite displayWidth_opt_code by apply getConnectionStateColor_opt_code.
  rewrite displayWidth_app_opt_code_sp by (apply getColor_opt_code; apply codes_ok).
  rewrite !displayWidth_app_sp, displayWidth_vbar.
  unfold sumZ; cbn [fold_right].
  repeat match goal with D : displayWidth _ = _ |- _ => rewrite D; clear D end.
  destruct (_ <? 1) eqn:Ep; [apply Z.ltb_lt in Ep|apply Z.ltb_ge in Ep]; lia.
Qed.

Lemma displayWidth_plain_app x y : no_esc x = true -> is_ascii x = true ->
  displayWidth (x ++ y) = Z.of_nat (List.length x) + displayWidth y.
Proof.
  intros H1 H2. unfold displayWidth.
  rewrite stripColors_app_noesc by exact H1. rewrite RuneCount_ascii_app by exact H2. lia.
Qed.

Lemma displayWidth_plain_cons c y :
  ((nat_of_ascii c <? 128)%nat && negb (Ascii.eqb c ESC))%bool = true ->
  displayWidth (c :: y) = 1 + displayWidth y.
Proof.
  intros H. apply andb_prop in H as [H1 H2]. apply Nat.ltb_lt in H1.
  change (c :: y) with ([c] ++ y). rewrite displayWidth_plain_app; [reflexivity| |].
  - unfold no_esc. cbn [forallb]. now rewrite H2.
  - unfold is_ascii. cbn [forallb]. apply Nat.ltb_lt in H1. now rewrite H1.
Qed.

Lemma displayWidth_getColor scr c : is_code c -> displayWidth (getColor scr c) = 0.
Proof.
  intros H. unfold getColor. destruct (ColorOutput scr); [|reflexivity].
  unfold displayWidth. rewrite <- (app_nil_r c), stripColors_code_app by exact H. reflexivity.
Qed.

Lemma topology_plain g :
  no_esc (b (GetTopologyDisplayName g)) = true /\ is_ascii (b (GetTopologyDisplayName g)) = true.
Proof.
  unfold GetTopologyDisplayName. destruct (String.eqb _ _); [split; reflexivity|].
  destruct (String.eqb _ _); split; reflexivity.
Qed.

Lemma clamp0 p : Z.max 0 (if p <? 0 then 0 else p) = Z.max 0 p.
Proof. destruct (p <? 0) eqn:E; [apply Z.ltb_lt in E|apply Z.ltb_ge in E]; lia. Qed.

Lemma displayWidth_app_opt_code x c : opt_code c -> displayWidth (x ++ c) = displayWidth x.
Proof.
  intros [->|H]; [now rewrite app_nil_r|]. unfold displayWidth. now rewrite stripColors_app_code.
Qed.

Lemma displayWidth_nil : displayWidth [] = 0.
Proof. reflexivity. Qed.

Ltac dw_norm :=
  repeat first
    [ rewrite displayWidth_nil
    | rewrite displayWidth_getColor by apply codes_ok
    | rewrite displayWidth_opt_code by (apply getColor_opt_code; apply codes_ok)
    | rewrite displayWidth_plain_cons by reflexivity
    | rewrite displayWidth_app_sp ].

(** the header of [renderLogicalDeviceGroup] has the display width of its
    uncolored text *)
Lemma groupHeader_text_width scr group :
  let name := ld_Name (g_LogicalDevice group) in
  let contexts := GetVirtualContextsDisplay group in
  let topology := GetTopologyDisplayName group in
  let header :=
    getColor scr ColorBold ++ b "LOGICAL DEVICE: " ++ b name ++ b " " ++
    getColor scr ColorBlue ++ b "(" ++ b topology ++ b ")" ++ getColor scr ColorReset in
  let header := if String.eqb contexts "" then header
                else header ++ b (" - Contexts: " ++ contexts) in
  let text := b ("LOGICAL DEVICE: " ++ name ++ " (" ++ topology ++ ")") ++
              (if String.eqb contexts "" then [] else b (" - Contexts: " ++ contexts)) in
  displayWidth header = displayWidth text.
Proof.
  cbv zeta. destruct (topology_plain group) as [T1 T2].
  generalize dependent (GetTopologyDisplayName group). intros topo T1 T2.
  destruct (String.eqb (GetVirtualContextsDisplay group) "").
  - rewrite app_nil_r, !b_app. unfold b in *. cbn [list_ascii_of_string app].
    dw_norm. rewrite !(displayWidth_plain_app (list_ascii_of_string topo)) by assumption.
    dw_norm. lia.
  - rewrite !b_app, <- !app_assoc. unfold b in *. cbn [list_ascii_of_string app].
    dw_norm. rewrite !(displayWidth_plain_app (list_ascii_of_string topo)) by assumption.
    dw_norm. lia.
Qed.

End TableFacts.

Module TableExtras.
Import Layout Client Settings Table TableSpec TableFacts.

(** X9: padString pads to the requested display width: the result has display width max(displayWidth s, width), for both alignments. *)
Theorem padString_width (s : bytes) (width : Z) (leftAlign : bool) :
  displayWidth (padString s width leftAlign) = Z.max (displayWidth s) width.
Proof. apply padString_width_gen. Qed.

(** X10: renderPhysicalDevice never panics, whatever the column arithmetic yields, and prints a line of display width max(termWidth, 21 + the sum of the column widths). *)
Theorem renderPhysicalDevice_line_width (int_mul : Z -> Z -> Z) (scr : Screen)
    (device : PhysicalDevice) (isLast : bool) :
  exists line, renderPhysicalDevice int_mul scr device isLast = Some line /\
  displayWidth line =
    Z.max (termWidth scr) (21 + sumZ (calculateColumnWidths int_mul (termWidth scr))).
Proof. apply renderPhysicalDevice_width_gen. Qed.

(** X11: when the float products of calculateColumnWidths round down and the terminal is at least 112 columns wide, each device line is exactly termWidth wide. *)
Theorem renderPhysicalDevice_fills_wide_terminal (int_mul : Z -> Z -> Z) (scr : Screen)
    (device : PhysicalDevice) (isLast : bool)
    (Hmul : forall x k, 0 <= x -> 0 <= k -> int_mul x k * 10 <= x * k)
    (Hwide : 112 <= termWidth scr) :
  exists line, renderPhysicalDevice int_mul scr device isLast = Some line /\
  displayWidth line = termWidth scr.
Proof.
  destruct (renderPhysicalDevice_width_gen int_mul scr device isLast) as (line & E & D).
  exists line. split; [exact E|]. rewrite D.
  unfold calculateColumnWidths, sumZ; cbv zeta.
  replace (fold_left (fun acc w => acc + (w + 3)) baseWidths 0) with 112 by reflexivity.
  cbn [map nth baseWidths fold_right].
  set (e := termWidth scr - 112).
  assert (He : 0 <= e) by (unfold e; lia).
  pose proof (Hmul e 1 He ltac:(lia)). pose proof (Hmul e 2 He ltac:(lia)).
  pose proof (Hmul e 3 He ltac:(lia)).
  repeat match goal with |- context[if ?c then _ else _] =>
    destruct c eqn:?; [rewrite Z.ltb_lt in *|rewrite Z.ltb_ge in *] end;
  lia.
Qed.

Lemma renderPhysicalDevice_fills_wide_terminal_witness :
  let int_mul := fun x k => Z.quot (x * k) 10 in
  let scr := mkScreen true 150 in
  let device := Samples.a1 in
  (forall x k, 0 <= x -> 0 <= k -> int_mul x k * 10 <= x * k) /\ 112 <= termWidth scr /\
  exists line, renderPhysicalDevice int_mul scr device true = Some line /\
  displayWidth line = termWidth scr.
Proof.
  intros int_mul scr device.
  assert (Hm : forall x k, 0 <= x -> 0 <= k -> int_mul x k * 10 <= x * k).
  { intros x k Hx Hk. unfold int_mul. rewrite Z.quot_div_nonneg by lia.
    pose proof (Z.mul_div_le (x * k) 10 ltac:(lia)). lia. }
  split; [exact Hm|]. split; [cbn; lia|].
  apply (renderPhysicalDevice_fills_wide_terminal int_mul scr device true Hm). cbn; lia.
Defined.

(** X12: renderSubheader and renderMessage print a line of display width displayWidth(message) + 4 + max(0, termWidth - len(message) - 4): the padding counts bytes, so multi-byte or colored messages give lines narrower than the terminal. *)
Theorem renderSubheader_renderMessage_width (scr : Screen) (message : bytes) :
  displayWidth (renderSubheader scr message) =
    displayWidth message + 4 + Z.max 0 (termWidth scr - Z.of_nat (List.length message) - 4) /\
  displayWidth (renderMessage scr message) =
    displayWidth message + 4 + Z.max 0 (termWidth scr - Z.of_nat (List.length message) - 4).
Proof.
  unfold renderSubheader, renderMessage; cbv zeta.
  rewrite displayWidth_boxed, clamp0. split; lia.
Qed.

(** X13: the first line of renderError has display width max(termWidth, displayWidth(simplified error) + 11): its padding counts display width, with the color codes excluded. *)
Theorem errorLine_width (scr : Screen) (simplifiedError : bytes) :
  displayWidth (errorLine scr simplifiedError) =
    Z.max (termWidth scr) (displayWidth simplifiedError + 11).
Proof.
  unfold errorLine; cbv zeta. rewrite displayWidth_boxed, clamp0.
  pose proof codes_ok as (H0 & H1 & _).
  rewrite displayWidth_opt_code by (now apply getColor_opt_code).
  rewrite !(displayWidth_plain_app (b "ERROR: ")) by reflexivity.
  rewrite displayWidth_app_opt_code by (now apply getColor_opt_code).
  cbn [List.length b list_ascii_of_string]. lia.
Qed.

(** X14: the header line of renderLogicalDeviceGroup has display width displayWidth(text) + 4 + max(0, termWidth - len(text) - 4), where text is the uncolored header text; the padding counts bytes. *)
Theorem groupHeaderLine_width (scr : Screen) (group : LogicalDeviceGroup) :
  let contexts := GetVirtualContextsDisplay group in
  let text := b ("LOGICAL DEVICE: " ++ ld_Name (g_LogicalDevice group) ++ " (" ++
                 GetTopologyDisplayName group ++ ")") ++
              (if String.eqb contexts "" then [] else b (" - Contexts: " ++ contexts)) in
  displayWidth (groupHeaderLine scr group) =
    displayWidth text + 4 + Z.max 0 (termWidth scr - Z.of_nat (List.length text) - 4).
Proof.
  pose proof (groupHeader_text_width scr group) as H. cbv zeta in *.
  unfold groupHeaderLine; cbv zeta. rewrite displayWidth_boxed, clamp0, H.
  destruct (String.eqb (GetVirtualContextsDisplay group) "").
  - rewrite app_nil_r, b_length. lia.
  - rewrite length_app, !b_length. lia.
Qed.

End TableExtras.

Module SettingsFacts.
Import Layout Client Settings Table TableFacts.

Lemma bytes_eqb_true x y : bytes_eqb x y = true -> x = y.
Proof. unfold bytes_eqb. destruct (list_eq_dec ascii_dec x y); [auto|discriminate]. Qed.

Lemma bytes_eqb_refl x : bytes_eqb x x = true.
Proof. unfold bytes_eqb. destruct (list_eq_dec ascii_dec x x); [auto|congruence]. Qed.

Lemma HasPrefix_In s p c : HasPrefix s p = true -> In c p -> In c s.
Proof.
  unfold HasPrefix. intros H Hc. apply andb_prop in H as [_ H]. apply bytes_eqb_true in H.
  rewrite <- (firstn_skipn (List.length p) s). apply in_or_app. left. now rewrite H.
Qed.

Lemma IndexSlash_None u : IndexSlash u = None -> ~ In "/"%char u.
Proof.
  induction u as [|c t IH]; cbn [IndexSlash]; [auto|].
  destruct (Ascii.eqb c "/") eqn:E; [discriminate|].
  destruct (IndexSlash t); [discriminate|]. intros _ [->|Ht]; [discriminate|]. now apply IH.
Qed.

Lemma IndexSlash_Some u i : IndexSlash u = Some i -> ~ In "/"%char (firstn i u).
Proof.
  revert i; induction u as [|c t IH]; intros i; cbn [IndexSlash]; [discriminate|].
  destruct (Ascii.eqb c "/") eqn:E; [intros [= <-]; auto|].
  destruct (IndexSlash t) as [j|] eqn:Ej; [|discriminate]. intros [= <-].
  cbn [firstn]. intros [->|Ht]; [discriminate|]. exact (IH j eq_refl Ht).
Qed.

Lemma IndexSlash_no_slash u : ~ In "/"%char u -> IndexSlash u = None.
Proof.
  induction u as [|c t IH]; intros H; [reflexivity|]. cbn [IndexSlash].
  destruct (Ascii.eqb c "/") eqn:E.
  - apply Ascii.eqb_eq in E. subst c. exfalso. apply H. now left.
  - rewrite IH; [reflexivity|]. intros Ht. apply H. now right.
Qed.

Lemma IndexSlash_app_slash h r : ~ In "/"%char h -> IndexSlash (h ++ "/"%char :: r) = Some (List.length h).
Proof.
  induction h as [|c t IH]; intros H; [reflexivity|]. cbn [IndexSlash app].
  destruct (Ascii.eqb c "/") eqn:E.
  - apply Ascii.eqb_eq in E. subst c. exfalso. apply H. now left.
  - rewrite IH; [reflexivity|]. intros Ht. apply H. now right.
Qed.

Lemma extractHost_result_no_slash url : ~ In "/"%char (extractHostFromURL url).
Proof.
  unfold extractHostFromURL. set (u := if HasPrefix url _ then _ else _).
  destruct (IndexSlash u) as [i|] eqn:E; [now apply IndexSlash_Some|now apply IndexSlash_None].
Qed.

Lemma HasSuffix_slash x : HasSuffix (x ++ ["/"%char]) ["/"%char] = true.
Proof.
  unfold HasSuffix. rewrite length_app. cbn [List.length].
  replace (List.length x + 1 - 1)%nat with (List.length x) by lia.
  rewrite skipn_app, skipn_all, Nat.sub_diag.
  apply andb_true_intro. split; [apply Nat.leb_le; lia|reflexivity].
Qed.

End SettingsFacts.

Module SettingsExtras.
Import Layout Client Settings Table TableFacts SettingsFacts.

(** X15: the result of extractHostFromURL contains no '/', and applying extractHostFromURL to it again changes nothing. *)
Theorem extractHostFromURL_host_only (url : bytes) :
  ~ In "/"%char (extractHostFromURL url) /\
  extractHostFromURL (extractHostFromURL url) = extractHostFromURL url.
Proof.
  pose proof (extractHost_result_no_slash url) as H. split; [exact H|].
  set (r := extractHostFromURL url) in *. unfold extractHostFromURL at 1.
  destruct (HasPrefix r (b "https://")) eqn:E1.
  { exfalso. apply H. apply (HasPrefix_In _ _ _ E1). cbn. tauto. }
  destruct (HasPrefix r (b "http://")) eqn:E2.
  { exfalso. apply H. apply (HasPrefix_In _ _ _ E2). cbn. tauto. }
  now rewrite (IndexSlash_no_slash r H).
Qed.

(** X16: for a URL made of "https://" or "http://", a host without '/', and nothing or a path starting with '/', extractHostFromURL returns the host. *)
Theorem extractHostFromURL_scheme (scheme host rest : bytes)
    (Hs : scheme = b "https://" \/ scheme = b "http://")
    (Hh : ~ In "/"%char host)
    (Hr : rest = [] \/ exists r, rest = "/"%char :: r) :
  extractHostFromURL (scheme ++ host ++ rest) = host.
Proof.
  assert (Hi : match IndexSlash (host ++ rest) with
               | Some idx => firstn idx (host ++ rest)
               | None => host ++ rest
               end = host).
  { destruct Hr as [->|[r ->]].
    - rewrite app_nil_r, IndexSlash_no_slash by exact Hh. reflexivity.
    - rewrite IndexSlash_app_slash by exact Hh. rewrite firstn_app, firstn_all, Nat.sub_diag.
      apply app_nil_r. }
  assert (Hpre : forall p X, HasPrefix (p ++ X) p = true).
  { intros p X. unfold HasPrefix. rewrite length_app.
    apply andb_true_intro. split; [apply Nat.leb_le; lia|].
    rewrite firstn_app, firstn_all, Nat.sub_diag. cbn [firstn]. rewrite app_nil_r.
    apply bytes_eqb_refl. }
  unfold extractHostFromURL. destruct Hs as [->| ->].
  - rewrite Hpre. cbn [b list_ascii_of_string app skipn]. exact Hi.
  - replace (HasPrefix (b "http://" ++ host ++ rest) (b "https://")) with false.
    + rewrite Hpre. cbn [b list_ascii_of_string app skipn]. exact Hi.
    + symmetry. unfold HasPrefix. destruct (_ <=? _)%nat; [|reflexivity]. cbn [andb].
      destruct (bytes_eqb _ _) eqn:E; [|reflexivity].
      apply bytes_eqb_true in E. cbn in E. discriminate E.
Qed.

Lemma extractHostFromURL_scheme_witness :
  extractHostFromURL (b "https://ptaf.example:8443/api/v2/") = b "ptaf.example:8443" /\
  extractHostFromURL (b "http://localhost") = b "localhost".
Proof.
  split.
  - apply (extractHostFromURL_scheme (b "https://") (b "ptaf.example:8443") (b "/api/v2/"));
      [left; reflexivity|cbn; intuition discriminate|right; eexists; reflexivity].
  - apply (extractHostFromURL_scheme (b "http://") (b "localhost") []);
      [right; reflexivity|cbn; intuition discriminate|left; reflexivity].
Defined.

(** X17: when validateConfig accepts a configuration, the base URL was nonempty, the poll interval is at least one second, the stored base URL is the given one or the given one with "/" appended, it ends with "/", and validating again accepts it unchanged. *)
Theorem validateConfig_accepts (BaseURL : string) (PollInterval : Z) (url : string)
    (H : validateConfig BaseURL PollInterval = (url, None)) :
  BaseURL <> ""%string /\ 1 * Second <= PollInterval /\
  (url = BaseURL \/ url = (BaseURL ++ "/")%string) /\
  HasSuffix (b url) (b "/") = true /\
  validateConfig url PollInterval = (url, None).
Proof.
  unfold validateConfig in H.
  destruct (String.eqb BaseURL "") eqn:E0; [discriminate|]. apply String.eqb_neq in E0.
  destruct (PollInterval <? 1 * Second) eqn:E2.
  { destruct (HasSuffix _ _); discriminate. }
  apply Z.ltb_ge in E2.
  assert (Hsuf : HasSuffix (b url) (b "/") = true /\ (url = BaseURL \/ url = (BaseURL ++ "/")%string)).
  { destruct (HasSuffix (b BaseURL) (b "/")) eqn:E1; injection H as <-.
    - auto.
    - split; [|auto]. rewrite b_app. apply HasSuffix_slash. }
  destruct Hsuf as [Hsuf Hurl].
  assert (Hne : url <> ""%string).
  { destruct Hurl as [->| ->]; [exact E0|]. destruct BaseURL; discriminate. }
  repeat split; try assumption.
  unfold validateConfig. apply String.eqb_neq in Hne. rewrite Hne, Hsuf.
  apply Z.ltb_ge in E2. now rewrite E2.
Qed.

Lemma validateConfig_accepts_witness :
  validateConfig "https://ptaf.example/api/v2" Second = ("https://ptaf.example/api/v2/"%string, None) /\
  HasSuffix (b "https://ptaf.example/api/v2/") (b "/") = true /\
  validateConfig "https://ptaf.example/api/v2/" Second = ("https://ptaf.example/api/v2/"%string, None).
Proof.
  assert (H : validateConfig "https://ptaf.example/api/v2" Second =
              ("https://ptaf.example/api/v2/"%string, None)) by reflexivity.
  destruct (validateConfig_accepts _ _ _ H) as (_ & _ & _ & H4 & H5).
  split; [exact H|]. split; assumption.
Defined.

End SettingsExtras.
